(** * Window embedding and capture engine of alt1-electron (X11 back end)

    A shallow embedding of [src/native/os_x11_linux.cc] and the properties
    its specification states about it.

    The X server is an external collaborator.  Its answers to the queries a
    call makes are an explicit input (record [xserver]); every libxcb call,
    every operation on the event thread and every mutation of the registry
    that the C++ code performs is appended, in program order, to the [trace]
    of the client state [conn].  [ensureConnection] (declared in
    [linux/x11.h]) only opens the connection on first use; the connection is
    taken as open.  Output on [std::cout] and the [free] of reply buffers are
    not modelled. *)

From Stdlib Require Import ZArith List Bool Lia.
From Stdlib.Strings Require Import String Byte.
Import ListNotations.
Local Open Scope Z_scope.

(** ** Data model *)

(** [xcb_window_t], [xcb_pixmap_t], [xcb_gcontext_t]: 32-bit resource ids. *)
Definition xid := Z.

(** Modelled from the spec: [TrackedWindow] is declared in [linux/x11.h]; a
    record of the embedded window and the frame created for it, built as
    [TrackedWindow(window, frame)]. *)
Record TrackedWindow := mkTrackedWindow { window : xid; frame : xid }.

(** Modelled from the spec: [JSRectangle] is declared in [os.h]; bounds
    with integer fields, built as [JSRectangle(x, y, width, height)].  The
    width of the fields is not known here and they are unbounded integers. *)
Record JSRectangle := mkRect { x : Z; y : Z; width : Z; height : Z }.

(** Modelled from the spec: [JSRectangle()], the zeroed bounds. *)
Definition JSRectangle_zero : JSRectangle := mkRect 0 0 0 0.

(** Modelled from the spec: [CaptureRect] is declared in [os.h]; a
    rectangle, the address of the destination buffer and its size. *)
Record CaptureRect := mkCaptureRect { rect : JSRectangle; data : Z; size : Z }.

(** [xcb_get_geometry_reply_t]: [root] is a window id, [x] and [y] are
    [int16_t], [width] and [height] are [uint16_t]. *)
Record geometry_reply := mkGeometry
  { g_root : xid; g_x : Z; g_y : Z; g_width : Z; g_height : Z }.

(** [xcb_query_tree_reply_t] with its list of children. *)
Record tree_reply := mkTree
  { t_root : xid; t_parent : xid; t_children : list xid }.

(** What the server answers while one call runs: the reply of each query
    ([None] is the NULL reply), the root window, and the values
    [xcb_wait_for_event] hands to the event thread while the caller waits in
    [join] ([None] is the NULL event of a broken connection; [Some t] is an
    event whose [response_type] is [t]). *)
Record xserver := mkServer
  { rootWindow : xid;
    query_tree : xid -> option tree_reply;
    get_geometry : xid -> option geometry_reply;
    wait_for_event : list (option Z) }.

(** The state of [std::thread windowThread] together with the position of
    [WindowThread] in its loop. *)
Inductive thread :=
| NotJoinable                (* default constructed, or joined *)
| AtLoopHead (gc : xid)      (* about to test windowThreadShouldRun *)
| InWait (gc : xid)          (* inside xcb_wait_for_event *)
| Finished.                  (* WindowThread returned, not yet joined *)

(** Everything a call does, in program order. *)
Inductive action :=
| QueryTree (w : xid)
| GetGeometry (d : xid)
| ConfigureWindow (w : xid) (mask : Z) (values : list Z)
| ChangeWindowAttributes (w : xid) (mask : Z) (values : list Z)
| CreateWindow (depth : Z) (wid parent : xid) (cx cy cw ch border : Z)
               (class visual mask : Z) (values : list Z)
| MapWindow (w : xid)
| ReparentWindow (w parent : xid) (rx ry : Z)
| CreateGC (gc drawable : xid) (mask : Z) (values : list Z)
| DestroyWindow (w : xid)
| Flush
| CompositeRedirectWindow (w : xid) (update : Z)
| CompositeNameWindowPixmap (w pixmap : xid)
| FreePixmap (pixmap : xid)
| ShmAttach (drawable : xid)
| ShmCopy (drawable : xid) (target len : Z) (sx sy sw sh : Z)
| ShmDetach (drawable : xid)
| PushBack (tw : TrackedWindow)
| EraseWindow (w : xid)
| ClearRegistry
| StoreShouldRun (b : bool)
| StoreExists (b : bool)
| StartThread (gc : xid)
| JoinThread.

(** The globals of the translation unit, the id allocator of the connection
    and the trace. *)
Record conn := mkConn
  { trackedWindows : list TrackedWindow;
    windowThread : thread;
    windowThreadExists : bool;
    windowThreadShouldRun : bool;
    next_xid : xid;
    trace : list action }.

Definition initial (base : xid) : conn :=
  mkConn [] NotJoinable false false base [].

(** ** The monad of a call *)

Inductive exn :=
| RangeError (msg : string)     (* Napi::RangeError *)
| system_error.                 (* std::system_error of std::thread::join *)

Inductive crash :=
| NullDereference               (* member access through a NULL reply *)
| OutOfBoundsRead               (* read past the end of an array *)
| StdTerminate.                 (* std::terminate *)

Inductive outcome (A : Type) :=
| Returned (a : A) (st : conn)
| Threw (e : exn) (st : conn)
| Crashed (why : crash)
| Blocked.                      (* the call has not returned: a join that
                                   never ends, a loop still running when
                                   its fuel is used up *)

Arguments Returned {A} a st.
Arguments Threw {A} e st.
Arguments Crashed {A} why.
Arguments Blocked {A}.

Definition M (A : Type) := conn -> outcome A.

Definition ret {A} (a : A) : M A := fun st => Returned a st.

Definition bind {A B} (m : M A) (k : A -> M B) : M B :=
  fun st =>
    match m st with
    | Returned a st' => k a st'
    | Threw e st' => Threw e st'
    | Crashed why => Crashed why
    | Blocked => Blocked
    end.

Notation "x <- m ;; k" := (bind m (fun x => k))
  (at level 61, m at next level, right associativity).
Notation "m ;;; k" := (bind m (fun _ => k))
  (at level 61, right associativity).

Definition throw {A} (e : exn) : M A := fun st => Threw e st.
Definition undefined {A} (why : crash) : M A := fun _ => Crashed why.

(** The state [st] with the actions [l] appended to its trace. *)
Definition appended (st : conn) (l : list action) : conn :=
  mkConn (trackedWindows st) (windowThread st) (windowThreadExists st)
         (windowThreadShouldRun st) (next_xid st) (trace st ++ l).

Definition emit (a : action) : M unit :=
  fun st => Returned tt (appended st [a]).

Definition get {A} (f : conn -> A) : M A := fun st => Returned (f st) st.

Definition set_trackedWindows (r : list TrackedWindow) : M unit :=
  fun st => Returned tt
    (mkConn r (windowThread st) (windowThreadExists st)
            (windowThreadShouldRun st) (next_xid st) (trace st)).

Definition set_windowThread (t : thread) : M unit :=
  fun st => Returned tt
    (mkConn (trackedWindows st) t (windowThreadExists st)
            (windowThreadShouldRun st) (next_xid st) (trace st)).

Definition set_windowThreadExists (b : bool) : M unit :=
  fun st => Returned tt
    (mkConn (trackedWindows st) (windowThread st) b
            (windowThreadShouldRun st) (next_xid st) (trace st)).

Definition set_windowThreadShouldRun (b : bool) : M unit :=
  fun st => Returned tt
    (mkConn (trackedWindows st) (windowThread st) (windowThreadExists st)
            b (next_xid st) (trace st)).

(** ** libxcb *)

(** [xcb_generate_id] hands out the ids of the connection's range one after
    the other; no id is handed out twice.  (The error value it returns on a
    broken connection is not modelled.) *)
Definition xcb_generate_id : M xid :=
  fun st => Returned (next_xid st)
    (mkConn (trackedWindows st) (windowThread st) (windowThreadExists st)
            (windowThreadShouldRun st) (next_xid st + 1) (trace st)).

Definition xcb_query_tree (X : xserver) (w : xid) : M (option tree_reply) :=
  emit (QueryTree w) ;;; ret (query_tree X w).

Definition xcb_get_geometry (X : xserver) (d : xid) : M (option geometry_reply) :=
  emit (GetGeometry d) ;;; ret (get_geometry X d).

Definition XCB_CONFIG_WINDOW_X := 1.
Definition XCB_CONFIG_WINDOW_Y := 2.
Definition XCB_CONFIG_WINDOW_WIDTH := 4.
Definition XCB_CONFIG_WINDOW_HEIGHT := 8.
Definition XCB_CW_OVERRIDE_REDIRECT := 512.
Definition XCB_CW_EVENT_MASK := 2048.
Definition XCB_GC_FOREGROUND := 4.
Definition XCB_GC_BACKGROUND := 8.
Definition XCB_COPY_FROM_PARENT := 0.
Definition XCB_WINDOW_CLASS_INPUT_OUTPUT := 1.
Definition XCB_COMPOSITE_REDIRECT_AUTOMATIC := 0.

(** What the server does with a ConfigureWindow request: the values are
    taken in the order of the bits set in the mask.  They are taken as the
    list gives them; the request carries x and y as INT16 and width and
    height as CARD16, so this is the geometry on the server for values
    within these ranges. *)
Definition take_value (on : bool) (old : Z) (values : list Z) : Z * list Z :=
  if on then
    match values with
    | v :: rest => (v, rest)
    | [] => (old, [])
    end
  else (old, values).

Definition configure_geometry (mask : Z) (values : list Z) (g : JSRectangle)
  : JSRectangle :=
  let '(gx, v1) := take_value (Z.testbit mask 0) (x g) values in
  let '(gy, v2) := take_value (Z.testbit mask 1) (y g) v1 in
  let '(gw, v3) := take_value (Z.testbit mask 2) (width g) v2 in
  let '(gh, _) := take_value (Z.testbit mask 3) (height g) v3 in
  mkRect gx gy gw gh.

(** The geometry of window [w] after the ConfigureWindow requests of a
    trace, from geometry [g]. *)
Fixpoint geometry_after (tr : list action) (w : xid) (g : JSRectangle)
  : JSRectangle :=
  match tr with
  | [] => g
  | ConfigureWindow w' mask values :: tr' =>
      geometry_after tr' w
        (if w' =? w then configure_geometry mask values g else g)
  | _ :: tr' => geometry_after tr' w g
  end.

(** ** Registry lookup *)

(** [GetFrame]: [std::find_if] over the registry, the frame of the first
    entry whose [window] is [win], or [nullptr]. *)
Fixpoint GetFrame (reg : list TrackedWindow) (win : xid) : option xid :=
  match reg with
  | [] => None
  | w :: rest => if window w =? win then Some (frame w) else GetFrame rest win
  end.

(** ** OSWindow::SetBounds *)

Definition SetBounds (handle : xid) (bounds : JSRectangle) : M unit :=
  reg <- get trackedWindows ;;
  match GetFrame reg handle with
  | Some frame =>
      (if (width bounds >? 0) && (height bounds >? 0) then
         emit (ConfigureWindow frame
                 (Z.lor (Z.lor (Z.lor XCB_CONFIG_WINDOW_X XCB_CONFIG_WINDOW_Y)
                               XCB_CONFIG_WINDOW_WIDTH) XCB_CONFIG_WINDOW_HEIGHT)
                 [x bounds; y bounds; width bounds; height bounds]) ;;;
         emit (ConfigureWindow handle
                 (Z.lor (Z.lor (Z.lor XCB_CONFIG_WINDOW_X XCB_CONFIG_WINDOW_Y)
                               XCB_CONFIG_WINDOW_WIDTH) XCB_CONFIG_WINDOW_HEIGHT)
                 [0; 0; width bounds; height bounds])
       else
         emit (ConfigureWindow frame
                 (Z.lor XCB_CONFIG_WINDOW_X XCB_CONFIG_WINDOW_Y)
                 [x bounds; y bounds])) ;;;
      emit Flush
  | None => ret tt
  end.

(** ** OSWindow::GetClientBounds *)

(** [auto x = reply->x] has the type of the reply's field, [int16_t]; so
    [x += reply->x] is stored back into 16 bits. *)
Definition int16 (z : Z) : Z := (z + 32768) mod 65536 - 32768.

(** The [while (true)] loop; [window] is the window whose parent is asked
    for, [reply] the last geometry reply, [ax], [ay] the running position.
    [fuel] bounds the number of iterations. *)
Fixpoint GetClientBounds_loop (fuel : nat) (X : xserver) (window : xid)
    (reply : geometry_reply) (ax ay : Z) : M (Z * Z) :=
  match fuel with
  | O => fun _ => Blocked
  | S fuel' =>
      replyTree <- xcb_query_tree X window ;;
      match replyTree with
      | None => ret (ax, ay)
      | Some t =>
          if t_parent t =? g_root reply then ret (ax, ay)
          else
            reply' <- xcb_get_geometry X (t_parent t) ;;
            match reply' with
            | None => ret (ax, ay)
            | Some r =>
                GetClientBounds_loop fuel' X (t_parent t) r
                  (int16 (ax + g_x r)) (int16 (ay + g_y r))
            end
      end
  end.

Definition GetClientBounds (fuel : nat) (X : xserver) (handle : xid)
  : M JSRectangle :=
  reply <- xcb_get_geometry X handle ;;
  match reply with
  | None => ret JSRectangle_zero
  | Some r =>
      p <- GetClientBounds_loop fuel X handle r (g_x r) (g_y r) ;;
      ret (mkRect (fst p) (snd p) (g_width r) (g_height r))
  end.

(** *** The walk of [GetClientBounds], as the specification describes it *)

Definition in_int16 (z : Z) : Prop := -32768 <= z < 32768.

(** [ancestors_read X w r rs]: from window [w], whose geometry reply is [r],
    the walk upward reads the geometry replies [rs] of the successive
    ancestors and then stops: because the tree query fails, because the
    parent is the root, or because the geometry query on the parent
    fails. *)
Inductive ancestors_read (X : xserver)
  : xid -> geometry_reply -> list geometry_reply -> Prop :=
| read_tree_fails w r :
    query_tree X w = None ->
    ancestors_read X w r []
| read_parent_is_root w r t :
    query_tree X w = Some t ->
    t_parent t = g_root r ->
    ancestors_read X w r []
| read_geometry_fails w r t :
    query_tree X w = Some t ->
    t_parent t <> g_root r ->
    get_geometry X (t_parent t) = None ->
    ancestors_read X w r []
| read_ancestor w r t r' rs :
    query_tree X w = Some t ->
    t_parent t <> g_root r ->
    get_geometry X (t_parent t) = Some r' ->
    ancestors_read X (t_parent t) r' rs ->
    ancestors_read X w r (r' :: rs).

Definition sum_x (rs : list geometry_reply) : Z :=
  fold_right (fun r a => g_x r + a) 0 rs.

Definition sum_y (rs : list geometry_reply) : Z :=
  fold_right (fun r a => g_y r + a) 0 rs.

(** The value a call returns, whatever state it leaves. *)
Definition returns {A} (o : outcome A) (a : A) : Prop :=
  exists st', o = Returned a st'.

(** ** The event thread *)

(** The end of [WindowThread]: [windowThreadExists = false; return]. *)
Definition WindowThread_exit (st : conn) : conn :=
  mkConn (trackedWindows st) Finished false
         (windowThreadShouldRun st) (next_xid st) (trace st).

Definition at_thread (t : thread) (st : conn) : conn :=
  mkConn (trackedWindows st) t (windowThreadExists st)
         (windowThreadShouldRun st) (next_xid st) (trace st).

(** One step of [WindowThread].  At the loop head it tests the run flag; in
    [xcb_wait_for_event] it receives [ev]: an event is dispatched on
    [response_type & ~0x80] (every case only writes a log line), freed, and
    the loop starts over; the NULL event leaves the loop. *)
Definition WindowThread_step (ev : option Z) (st : conn) : conn :=
  match windowThread st with
  | AtLoopHead gc =>
      if windowThreadShouldRun st then at_thread (InWait gc) st
      else WindowThread_exit st
  | InWait gc =>
      match ev with
      | Some response_type => at_thread (AtLoopHead gc) st
      | None => WindowThread_exit st
      end
  | NotJoinable | Finished => st
  end.

(** [WindowThread] run to its end while the other thread is blocked; [evs]
    are the values [xcb_wait_for_event] returns.  [None]: the thread is
    still waiting when [evs] is used up. *)
Fixpoint WindowThread_run (evs : list (option Z)) (st : conn) : option conn :=
  match windowThread st with
  | AtLoopHead gc =>
      if windowThreadShouldRun st then
        match evs with
        | [] => None
        | ev :: evs' =>
            WindowThread_run evs' (WindowThread_step ev (WindowThread_step ev st))
        end
      else Some (WindowThread_step None st)
  | InWait gc =>
      match evs with
      | [] => None
      | ev :: evs' => WindowThread_run evs' (WindowThread_step ev st)
      end
  | NotJoinable | Finished => Some st
  end.

(** [windowThread = std::thread(WindowThread, gc)]: move assignment to a
    joinable [std::thread] calls [std::terminate]. *)
Definition start_thread (gc : xid) : M unit :=
  t <- get windowThread ;;
  match t with
  | NotJoinable => emit (StartThread gc) ;;; set_windowThread (AtLoopHead gc)
  | _ => undefined StdTerminate
  end.

(** [windowThread.join()]: throws when the thread is not joinable, otherwise
    returns once [WindowThread] has returned. *)
Definition thread_join (X : xserver) : M unit :=
  emit JoinThread ;;;
  fun st =>
    match windowThread st with
    | NotJoinable => Threw system_error st
    | _ =>
        match WindowThread_run (wait_for_event X) st with
        | Some st' => Returned tt (at_thread NotJoinable st')
        | None => Blocked
        end
    end.

(** ** OSSetWindowParent *)

Definition push_back (tw : TrackedWindow) : M unit :=
  emit (PushBack tw) ;;;
  reg <- get trackedWindows ;;
  set_trackedWindows (reg ++ [tw]).

Definition clear : M unit :=
  emit ClearRegistry ;;; set_trackedWindows [].

(** [erase(remove_if(..., w.window == win), end)] *)
Definition erase_window (win : xid) : M unit :=
  emit (EraseWindow win) ;;;
  reg <- get trackedWindows ;;
  set_trackedWindows (filter (fun w => negb (window w =? win)) reg).

Definition OSSetWindowParent (X : xserver) (wnd parent : xid) : M unit :=
  if negb (parent =? 0) then
    tree <- xcb_query_tree X parent ;;
    geometry <- xcb_get_geometry X wnd ;;
    match tree with
    | Some t =>
        if negb (t_parent t =? t_root t) then
          id <- xcb_generate_id ;;
          push_back (mkTrackedWindow wnd id) ;;;
          emit (ChangeWindowAttributes wnd XCB_CW_OVERRIDE_REDIRECT [1]) ;;;
          match geometry with
          | None => undefined NullDereference
          | Some g =>
              emit (CreateWindow XCB_COPY_FROM_PARENT id (t_parent t) 0 0
                      (g_width g) (g_height g) 0
                      XCB_WINDOW_CLASS_INPUT_OUTPUT XCB_COPY_FROM_PARENT
                      (Z.lor XCB_CW_OVERRIDE_REDIRECT XCB_CW_EVENT_MASK)
                      [1; 33554431]) ;;;
              emit (MapWindow id) ;;;
              emit (ReparentWindow wnd id 0 0) ;;;
              running <- get windowThreadExists ;;
              (if negb running then
                 gc <- xcb_generate_id ;;
                 emit (CreateGC gc id
                         (Z.lor XCB_GC_BACKGROUND XCB_GC_FOREGROUND)
                         [0x80AAAAAA; 0x80FFFFFF]) ;;;
                 emit (StoreShouldRun true) ;;;
                 set_windowThreadShouldRun true ;;;
                 emit (StoreExists true) ;;;
                 set_windowThreadExists true ;;;
                 start_thread gc
               else ret tt) ;;;
              emit Flush
          end
        else ret tt
    | None => ret tt
    end
  else
    reg <- get trackedWindows ;;
    match GetFrame reg wnd with
    | Some frame =>
        emit (ReparentWindow wnd (rootWindow X) 0 0) ;;;
        if Z.of_nat (List.length reg) =? 1 then
          emit (StoreShouldRun false) ;;;
          set_windowThreadShouldRun false ;;;
          emit (DestroyWindow frame) ;;;
          emit Flush ;;;
          thread_join X ;;;
          clear
        else
          emit (DestroyWindow frame) ;;;
          emit Flush ;;;
          erase_window wnd
    | None => ret tt
    end.

(** ** Capture *)

(** Modelled from the spec: [XShmCapture] is declared in [linux/shm.h].  Its
    constructor attaches a shared memory segment for the drawable, [copy]
    reads one region of the drawable into the caller's buffer through the
    segment, and its destructor, at the end of the enclosing scope, detaches
    the segment. *)
Definition XShmCapture_new (drawable : xid) : M unit :=
  emit (ShmAttach drawable).

(** Modelled from the spec: [XShmCapture::copy], one region of the drawable
    read into the caller's buffer. *)
Definition XShmCapture_copy (drawable : xid) (target len sx sy sw sh : Z)
  : M unit :=
  emit (ShmCopy drawable target len sx sy sw sh).

(** Modelled from the spec: the destructor of [XShmCapture], run when the
    scope of the object ends. *)
Definition XShmCapture_delete (drawable : xid) : M unit :=
  emit (ShmDetach drawable).

(** Modelled from the spec: [CaptureMode] is declared in [os.h]; Desktop and
    Window are the modes this back end serves, any other value of the
    enumeration is [OtherMode]. *)
Inductive CaptureMode := Desktop | Window | OtherMode (raw : Z).

(** The loop of [OSCaptureDesktopMulti] over [rects]. *)
Fixpoint desktop_copies (drawable : xid) (offset : JSRectangle)
    (rects : list CaptureRect) : M unit :=
  match rects with
  | [] => ret tt
  | r :: rest =>
      XShmCapture_copy drawable (data r) (size r)
        (x (rect r) + x offset) (y (rect r) + y offset)
        (width (rect r)) (height (rect r)) ;;;
      desktop_copies drawable offset rest
  end.

Definition OSCaptureDesktopMulti (fuel : nat) (X : xserver) (wnd : xid)
    (rects : list CaptureRect) : M unit :=
  XShmCapture_new (rootWindow X) ;;;
  offset <- GetClientBounds fuel X wnd ;;
  desktop_copies (rootWindow X) offset rects ;;;
  XShmCapture_delete (rootWindow X).

(** The loop of [OSCaptureWindowMulti] over [rects]. *)
Fixpoint window_copies (drawable : xid) (rects : list CaptureRect) : M unit :=
  match rects with
  | [] => ret tt
  | r :: rest =>
      XShmCapture_copy drawable (data r) (size r)
        (x (rect r)) (y (rect r)) (width (rect r)) (height (rect r)) ;;;
      window_copies drawable rest
  end.

Definition OSCaptureWindowMulti (X : xserver) (wnd : xid)
    (rects : list CaptureRect) : M unit :=
  emit (CompositeRedirectWindow wnd XCB_COMPOSITE_REDIRECT_AUTOMATIC) ;;;
  pixId <- xcb_generate_id ;;
  emit (CompositeNameWindowPixmap wnd pixId) ;;;
  reply <- xcb_get_geometry X pixId ;;
  match reply with
  | None => emit (FreePixmap pixId)
  | Some _ =>
      XShmCapture_new pixId ;;;
      window_copies pixId rects ;;;
      emit (FreePixmap pixId) ;;;
      XShmCapture_delete pixId
  end.

Definition OSCaptureMulti (fuel : nat) (X : xserver) (wnd : xid)
    (mode : CaptureMode) (rects : list CaptureRect) : M unit :=
  match mode with
  | Desktop => OSCaptureDesktopMulti fuel X wnd rects
  | Window => OSCaptureWindowMulti X wnd rects
  | OtherMode _ => throw (RangeError "Capture mode not supported")
  end.

(** ** Calls in sequence *)

Inductive call :=
| CallSetParent (X : xserver) (wnd parent : xid)
| CallSetBounds (handle : xid) (bounds : JSRectangle)
| CallCapture (fuel : nat) (X : xserver) (wnd : xid) (mode : CaptureMode)
              (rects : list CaptureRect).

Definition run_call (c : call) : M unit :=
  match c with
  | CallSetParent X wnd parent => OSSetWindowParent X wnd parent
  | CallSetBounds handle bounds => SetBounds handle bounds
  | CallCapture fuel X wnd mode rects => OSCaptureMulti fuel X wnd mode rects
  end.

(** What happens to the process: a call of the host application, or a step
    of the event thread between two calls. *)
Inductive event :=
| Invoke (c : call)
| ThreadStep (ev : option Z).

(** The state after an event; [None] when the process is gone or the call
    never returns.  An exception leaves the state as it was when thrown. *)
Definition step (e : event) (st : conn) : option conn :=
  match e with
  | Invoke c =>
      match run_call c st with
      | Returned _ st' => Some st'
      | Threw _ st' => Some st'
      | Crashed _ => None
      | Blocked => None
      end
  | ThreadStep ev => Some (WindowThread_step ev st)
  end.

Fixpoint replay (evs : list event) (st : conn) : option conn :=
  match evs with
  | [] => Some st
  | e :: rest =>
      match step e st with
      | Some st' => replay rest st'
      | None => None
      end
  end.

Definition reachable (st : conn) : Prop :=
  exists base evs, replay evs (initial base) = Some st.

(** Every embed request of the sequence names a window that has no entry at
    the time of the request. *)
Fixpoint embeds_fresh (evs : list event) (st : conn) : bool :=
  match evs with
  | [] => true
  | e :: rest =>
      match e with
      | Invoke (CallSetParent _ wnd parent) =>
          if parent =? 0 then true
          else match GetFrame (trackedWindows st) wnd with
               | None => true
               | Some _ => false
               end
      | _ => true
      end
      && match step e st with
         | Some st' => embeds_fresh rest st'
         | None => true
         end
  end.

(** Pixmaps named and segments attached by a trace and not released by it,
    starting from those in [pix] and [shm]. *)
Fixpoint unreleased (tr : list action) (pix shm : list xid)
  : list xid * list xid :=
  match tr with
  | [] => (pix, shm)
  | CompositeNameWindowPixmap _ p :: tr' => unreleased tr' (p :: pix) shm
  | FreePixmap p :: tr' => unreleased tr' (remove Z.eq_dec p pix) shm
  | ShmAttach d :: tr' => unreleased tr' pix (d :: shm)
  | ShmDetach d :: tr' => unreleased tr' pix (remove Z.eq_dec d shm)
  | _ :: tr' => unreleased tr' pix shm
  end.

(** ** Window discovery *)

(** The window tree as the server reports it while the walk runs: the id of
    a window, the reply to the read of its WM_CLASS property ([None] is the
    NULL reply, [Some v] a reply whose value is [v] and whose value length
    is the length of [v]) and the reply to the tree query on it ([None] is
    the NULL reply, [Some cs] the children). *)
#[local] Set Warnings "-register-all".
Inductive wnode :=
| WNode (id : xid) (wm_class : option (list byte)) (tree : option (list wnode)).

Definition node_id (n : wnode) : xid :=
  match n with WNode id _ _ => id end.

Definition long_length : Z := 4096.

(** [strlen]: the bytes before the first NUL. *)
Fixpoint strlen (s : list byte) : nat :=
  match s with
  | [] => O
  | b :: rest => if Byte.eqb b x00 then O else S (strlen rest)
  end.

(** [strcmp(s, lit) == 0] for a literal [lit], on the bytes [s] that remain
    of the array; [None] when the comparison reads past the array. *)
Fixpoint strcmp_equal (s lit : list byte) : option bool :=
  match s, lit with
  | [], _ => None
  | b :: _, [] => Some (Byte.eqb b x00)
  | b :: rest, c :: lit' =>
      if Byte.eqb b c then strcmp_equal rest lit' else Some false
  end.

Definition RuneScape : list byte := list_byte_of_string "RuneScape".
Definition steam_app_1343400 : list byte :=
  list_byte_of_string "steam_app_1343400".

(** [char buffer[long_length] = { 0 }; memcpy(buffer, value, len);] *)
Definition buffer_of (value : list byte) : list byte :=
  value ++ repeat x00 (Z.to_nat long_length - List.length value).

(** The two [strcmp] of the class name at [buffer + strlen(buffer) + 1]. *)
Definition classname_matches (value : list byte) : option bool :=
  let buffer := buffer_of value in
  let classname := skipn (S (strlen buffer)) buffer in
  match strcmp_equal classname RuneScape with
  | None => None
  | Some true => Some true
  | Some false => strcmp_equal classname steam_app_1343400
  end.

(** The result vector [out] and [deepest].  Depths are counted in [nat]:
    a tree of windows is less than 2^32 deep. *)
Definition found := (list xid * nat)%type.

Definition take_deepest (child : xid) (depth : nat) (st : found) : found :=
  let (out, deepest) := st in
  if (deepest <? depth)%nat then ([child], depth)
  else if (depth =? deepest)%nat then (out ++ [child], deepest)
  else st.

(** The body of the loop up to the recursive call. *)
Definition check_child (child : wnode) (depth : nat) (st : found)
  : crash + found :=
  match child with
  | WNode id replyProp _ =>
      match replyProp with
      | Some value =>
          let len := Z.of_nat (List.length value) in
          if (len >? 0) && (len <? long_length) then
            match classname_matches value with
            | None => inl OutOfBoundsRead
            | Some true => inr (take_deepest id depth st)
            | Some false => inr st
            end
          else inr st
      | None => inr st
      end
  end.

Fixpoint GetRsHandlesRecursively (wnd : wnode) (st : found) (depth : nat)
  {struct wnd} : crash + found :=
  match wnd with
  | WNode _ _ None => inr st
  | WNode _ _ (Some children) =>
      (fix loop (cs : list wnode) (st : found) {struct cs} : crash + found :=
         match cs with
         | [] => inr st
         | child :: rest =>
             match check_child child depth st with
             | inl c => inl c
             | inr st1 =>
                 match GetRsHandlesRecursively child st1 (S depth) with
                 | inl c => inl c
                 | inr st2 => loop rest st2
                 end
             end
         end) children st
  end.

Definition OSGetRsHandles (root : wnode) : crash + list xid :=
  match GetRsHandlesRecursively root ([], O) O with
  | inl c => inl c
  | inr (out, _) => inr out
  end.

(** ** Invariants of the registry and the thread *)

Definition running (t : thread) : bool :=
  match t with
  | AtLoopHead _ | InWait _ => true
  | NotJoinable | Finished => false
  end.

(** [windowThreadExists] is set exactly while [WindowThread] runs, and a
    registry with entries has a thread object that can be joined. *)
Definition thread_inv (st : conn) : Prop :=
  windowThreadExists st = running (windowThread st)
  /\ (trackedWindows st <> [] -> windowThread st <> NotJoinable).

(** The frames of the registry are distinct ids the allocator has already
    handed out. *)
Definition frames_inv (st : conn) : Prop :=
  NoDup (map frame (trackedWindows st))
  /\ Forall (fun tw => frame tw < next_xid st) (trackedWindows st).

(** The event thread leaves everything but the thread object and
    [windowThreadExists] alone. *)
Definition thread_only (st st' : conn) : Prop :=
  trackedWindows st' = trackedWindows st
  /\ next_xid st' = next_xid st
  /\ trace st' = trace st
  /\ windowThreadShouldRun st' = windowThreadShouldRun st.

(** A call that leaves the registry, the thread and its flags alone; the
    allocator may have handed out ids. *)
Definition registry_untouched (st st' : conn) : Prop :=
  trackedWindows st' = trackedWindows st
  /\ windowThread st' = windowThread st
  /\ windowThreadExists st' = windowThreadExists st
  /\ windowThreadShouldRun st' = windowThreadShouldRun st
  /\ next_xid st <= next_xid st'.

Definition is_query (a : action) : bool :=
  match a with
  | QueryTree _ | GetGeometry _ => true
  | _ => false
  end.

(** Actions that neither create nor release a pixmap or a segment. *)
Definition holds_no_resource (a : action) : bool :=
  match a with
  | CompositeNameWindowPixmap _ _ | FreePixmap _ | ShmAttach _ | ShmDetach _ =>
      false
  | _ => true
  end.

(** ** Sample data *)

(** A server with one top-level window 20 at (100,200), its child 21 at
    (5,7), and below it the window 22 at (1,1); root window 1. *)
Definition sample_server : xserver :=
  mkServer 1
    (fun w => if w =? 22 then Some (mkTree 1 21 [])
              else if w =? 21 then Some (mkTree 1 20 [22])
              else if w =? 20 then Some (mkTree 1 1 [21])
              else None)
    (fun w => if w =? 22 then Some (mkGeometry 1 1 1 30 40)
              else if w =? 21 then Some (mkGeometry 1 5 7 300 400)
              else if w =? 20 then Some (mkGeometry 1 100 200 640 480)
              else if w =? 50 then Some (mkGeometry 1 0 0 80 60)
              else None)
    [Some 18].

(** The state after window 50 was embedded next to window 22 and the event
    thread went to wait for its first event: one entry, 50 in frame 1000. *)
Definition sample_run : list event :=
  [Invoke (CallSetParent sample_server 50 22); ThreadStep None].

Definition sample_state : conn :=
  Eval vm_compute in
    match replay sample_run (initial 1000) with
    | Some st => st
    | None => initial 1000
    end.

(** A server with a window 31 at (20000,20000) inside the top-level window
    30 at (20000,20000); root window 1. *)
Definition far_server : xserver :=
  mkServer 1
    (fun w => if w =? 31 then Some (mkTree 1 30 [])
              else if w =? 30 then Some (mkTree 1 1 [31])
              else None)
    (fun w => if w =? 31 then Some (mkGeometry 1 20000 20000 10 10)
              else if w =? 30 then Some (mkGeometry 1 20000 20000 100 100)
              else None)
    [].

(** *** Window discovery, as the specification describes it *)

(** The loop of [GetRsHandlesRecursively] over the children, by name. *)
Fixpoint GetRsHandles_children (cs : list wnode) (st : found) (depth : nat)
  : crash + found :=
  match cs with
  | [] => inr st
  | child :: rest =>
      match check_child child depth st with
      | inl c => inl c
      | inr st1 =>
          match GetRsHandlesRecursively child st1 (S depth) with
          | inl c => inl c
          | inr st2 => GetRsHandles_children rest st2 depth
          end
      end
  end.

(** The class-name property: instance name, NUL, class name, NUL.
    [after_nul v] is what follows the first NUL of [v], [until_nul v] what
    precedes it; the class name is the string after the instance name. *)
Fixpoint after_nul (v : list byte) : option (list byte) :=
  match v with
  | [] => None
  | b :: rest => if Byte.eqb b x00 then Some rest else after_nul rest
  end.

Fixpoint until_nul (v : list byte) : list byte :=
  match v with
  | [] => []
  | b :: rest => if Byte.eqb b x00 then [] else b :: until_nul rest
  end.

Definition class_name (value : list byte) : option (list byte) :=
  option_map until_nul (after_nul value).

(** The value was read whole and is not empty. *)
Definition read_whole (value : list byte) : bool :=
  (Z.of_nat (List.length value) >? 0)
  && (Z.of_nat (List.length value) <? long_length).

(** The node is taken as a match by the loop body. *)
Definition is_match (n : wnode) : bool :=
  match n with
  | WNode _ (Some value) _ =>
      read_whole value
      && match classname_matches value with
         | Some true => true
         | _ => false
         end
  | WNode _ None _ => false
  end.

(** The comparison of the node's class name reads past [buffer]. *)
Definition overruns (n : wnode) : bool :=
  match n with
  | WNode _ (Some value) _ =>
      read_whole value
      && match classname_matches value with
         | None => true
         | _ => false
         end
  | WNode _ None _ => false
  end.

(** The descendants of a window with their depth below it, in the order
    of the walk; the children of the window are at [depth]. *)
Fixpoint descendants (n : wnode) (depth : nat) : list (nat * wnode) :=
  match n with
  | WNode _ _ None => []
  | WNode _ _ (Some cs) =>
      flat_map (fun c => (depth, c) :: descendants c (S depth)) cs
  end.

Definition max_depth (ms : list (nat * wnode)) : nat :=
  fold_right (fun m d => Nat.max (fst m) d) O ms.

(** Of the matches [ms], the handles of those at the greatest depth, with
    that depth. *)
Definition deepest (ms : list (nat * wnode)) : found :=
  (map (fun m => node_id (snd m))
       (filter (fun m => (fst m =? max_depth ms)%nat) ms),
   max_depth ms).

Definition matches (root : wnode) : list (nat * wnode) :=
  filter (fun m => is_match (snd m)) (descendants root O).

(** What one descendant does to [out] and [deepest]. *)
Definition absorb (st : found) (m : nat * wnode) : found :=
  if is_match (snd m) then take_deepest (node_id (snd m)) (fst m) st else st.

(** A WM_CLASS value: instance name and class name, each NUL terminated. *)
Definition wm_class_value (instance class : string) : list byte :=
  list_byte_of_string instance ++ [x00] ++ list_byte_of_string class ++ [x00].

(** A property value of 4095 bytes without a NUL. *)
Definition unterminated_value : list byte := repeat x41 4095.

Definition overrun_tree : wnode :=
  WNode 1 None (Some [WNode 60 (Some unterminated_value) (Some [])]).

(** A tree with the game at depths 2, 2 and 4 (windows 13, 15 and 18) and
    other windows around them. *)
Definition game : option (list byte) :=
  Some (wm_class_value "RuneScape" "RuneScape").
Definition steam_game : option (list byte) :=
  Some (wm_class_value "steam_app_1343400" "steam_app_1343400").
Definition other : option (list byte) :=
  Some (wm_class_value "xterm" "XTerm").

Definition sample_tree : wnode :=
  WNode 1 None (Some
    [WNode 11 other (Some
       [WNode 12 None (Some
          [WNode 13 game (Some []);
           WNode 14 other None])]);
     WNode 16 (Some []) (Some
       [WNode 17 other (Some
          [WNode 15 steam_game (Some
             [WNode 19 other (Some
                [WNode 18 game (Some [])])])])])]).

(** A tree whose only match is a child of the root. *)
Definition shallow_tree : wnode :=
  WNode 1 None (Some
    [WNode 11 game (Some [WNode 12 other (Some [WNode 13 other None])]);
     WNode 14 other (Some [])]).

(** A tree with a match at depth 0 (window 11) and two at depth 1 (windows
    12 and 14). *)
Definition tied_tree : wnode :=
  WNode 1 None (Some
    [WNode 11 game (Some [WNode 12 game (Some [])]);
     WNode 13 other (Some [WNode 14 steam_game None])]).

(** ** Further operations of the back end *)

(** [OSWindow::GetBounds]: the geometry of the parent the tree query
    reports; the zeroed bounds when either reply is missing. *)
Definition GetBounds (X : xserver) (handle : xid) : M JSRectangle :=
  reply <- xcb_query_tree X handle ;;
  match reply with
  | None => ret JSRectangle_zero
  | Some t =>
      reply2 <- xcb_get_geometry X (t_parent t) ;;
      match reply2 with
      | None => ret JSRectangle_zero
      | Some g => ret (mkRect (g_x g) (g_y g) (g_width g) (g_height g))
      end
  end.

(** [OSWindow::IsValid]: false for the zero handle, before any request;
    otherwise whether the geometry query has a reply. *)
Definition IsValid (X : xserver) (handle : xid) : M bool :=
  if handle =? 0 then ret false
  else
    reply <- xcb_get_geometry X handle ;;
    ret (match reply with Some _ => true | None => false end).

(** [OSWindow::ToJS]: [Napi::BigInt::New(env, (uint64_t) handle)]; a
    handle is a 32-bit value and the cast keeps it. *)
Definition ToJS (handle : xid) : Z := handle.

(** [OSWindow::FromJsValue] on a BigInt of value [jsval].
    [Uint64Value(&lossless)] gives the value modulo 2^64 and clears
    [lossless] when the BigInt is negative or does not fit 64 bits; the
    assignment to [xcb_window_t] keeps the low 32 bits.
    [ThrowAsJavaScriptException] leaves the RangeError pending and the
    function goes on to return the window. *)
Definition FromJsValue (jsval : Z) : xid * option exn :=
  let value := jsval mod 2 ^ 64 in
  let lossless := (0 <=? jsval) && (jsval <? 2 ^ 64) in
  let handleint := value mod 2 ^ 32 in
  (handleint, if lossless then None else Some (RangeError "Invalid handle")).

(** A handle as the windowing system gives them out. *)
Definition is_handle (h : xid) : Prop := 0 <= h < 2 ^ 32.

(** The running thread, wherever it is in its loop. *)
Definition thread_gc (t : thread) : option xid :=
  match t with
  | AtLoopHead gc | InWait gc => Some gc
  | NotJoinable | Finished => None
  end.

(** The requests of the embedding branch of [OSSetWindowParent] up to the
    test of [windowThreadExists], for window [w], frame [id], the parent
    [above] the frame is created in and the geometry [g] of [w]. *)
Definition frame_requests (w id above : xid) (g : geometry_reply)
  : list action :=
  [PushBack (mkTrackedWindow w id);
   ChangeWindowAttributes w XCB_CW_OVERRIDE_REDIRECT [1];
   CreateWindow XCB_COPY_FROM_PARENT id above 0 0 (g_width g) (g_height g) 0
     XCB_WINDOW_CLASS_INPUT_OUTPUT XCB_COPY_FROM_PARENT
     (Z.lor XCB_CW_OVERRIDE_REDIRECT XCB_CW_EVENT_MASK) [1; 33554431];
   MapWindow id;
   ReparentWindow w id 0 0].

(** The actions that start or stop the event thread. *)
Definition is_thread_action (a : action) : bool :=
  match a with
  | StartThread _ | JoinThread | StoreShouldRun _ | StoreExists _
  | CreateGC _ _ _ _ => true
  | _ => false
  end.

(** A server whose root window 1 covers 1920x1080, with the top-level
    window 20 at (100,200) and its child 21 at (5,7); window 40 has a
    geometry but no tree reply. *)
Definition desk_server : xserver :=
  mkServer 1
    (fun w => if w =? 21 then Some (mkTree 1 20 [])
              else if w =? 20 then Some (mkTree 1 1 [21])
              else if w =? 1 then Some (mkTree 1 0 [20])
              else None)
    (fun w => if w =? 21 then Some (mkGeometry 1 5 7 300 400)
              else if w =? 20 then Some (mkGeometry 1 100 200 640 480)
              else if w =? 1 then Some (mkGeometry 1 0 0 1920 1080)
              else if w =? 40 then Some (mkGeometry 1 9 9 10 10)
              else None)
    [None].



(** The state after windows 50 and 20 were embedded. *)
Definition two_run : list event :=
  [Invoke (CallSetParent sample_server 50 22);
   Invoke (CallSetParent sample_server 20 22)].

Definition two_state : conn :=
  Eval vm_compute in
    match replay two_run (initial 1000) with
    | Some st => st
    | None => initial 1000
    end.

(** The state after window 50 was embedded twice. *)
Definition twice_run : list event :=
  [Invoke (CallSetParent sample_server 50 22);
   Invoke (CallSetParent sample_server 50 22)].

Definition twice_state : conn :=
  Eval vm_compute in
    match replay twice_run (initial 1000) with
    | Some st => st
    | None => initial 1000
    end.

(** While [WindowThread] runs, the run flag is set. *)
Definition flag_inv (st : conn) : Prop :=
  running (windowThread st) = true -> windowThreadShouldRun st = true.

(** A run that embeds windows 50 and 20, un-embeds 50 while 20 stays, and
    embeds 50 again: every embed names a window without an entry, and the
    registry ends with the two entries (20,1002) and (50,1003). *)
Definition churn_run : list event :=
  [Invoke (CallSetParent sample_server 50 22);
   ThreadStep None;
   Invoke (CallSetParent sample_server 20 22);
   Invoke (CallSetParent sample_server 50 0);
   ThreadStep (Some 18);
   Invoke (CallSetParent sample_server 50 22)].

Definition churn_state : conn :=
  Eval vm_compute in
    match replay churn_run (initial 1000) with
    | Some st => st
    | None => initial 1000
    end.

(** * Properties *)

(** ** Trace bookkeeping *)

Lemma appended_appended (st : conn) (l1 l2 : list action) :
  appended (appended st l1) l2 = appended st (l1 ++ l2).
Proof.
  unfold appended; simpl. now rewrite <- app_assoc.
Qed.

Lemma appended_nil (st : conn) : appended st [] = st.
Proof.
  destruct st; unfold appended; simpl. now rewrite app_nil_r.
Qed.

(** Unfolds the monad so that a straight-line call computes. *)
Ltac run :=
  unfold bind, ret, get, emit, throw, undefined; simpl;
  repeat rewrite appended_appended; simpl.

(** ** SetBounds *)

Lemma configure_position_keeps_size (vx vy : Z) (g : JSRectangle) :
  configure_geometry (Z.lor XCB_CONFIG_WINDOW_X XCB_CONFIG_WINDOW_Y) [vx; vy] g
  = mkRect vx vy (width g) (height g).
Proof. reflexivity. Qed.

(** C10.  [SetBounds] on a handle without an entry in the registry issues no
    request at all (the state, trace included, is unchanged).  When the
    handle has an entry with frame [f] and the requested width or height is
    not positive, the call issues exactly one ConfigureWindow, on [f] and with
    the X and Y bits only, followed by a flush; under these requests every
    window keeps its width and height, every window other than [f] keeps its
    whole geometry, and [f] moves to the requested position. *)
Theorem SetBounds_no_entry_or_position_only
    (handle : xid) (bounds : JSRectangle) (st : conn) :
  (GetFrame (trackedWindows st) handle = None ->
   SetBounds handle bounds st = Returned tt st)
  /\
  (forall f : xid,
     GetFrame (trackedWindows st) handle = Some f ->
     width bounds <= 0 \/ height bounds <= 0 ->
     let requests :=
       [ConfigureWindow f (Z.lor XCB_CONFIG_WINDOW_X XCB_CONFIG_WINDOW_Y)
          [x bounds; y bounds]; Flush] in
     SetBounds handle bounds st = Returned tt (appended st requests)
     /\ (forall w g, width (geometry_after requests w g) = width g
                  /\ height (geometry_after requests w g) = height g)
     /\ (forall w g, w <> f -> geometry_after requests w g = g)
     /\ (forall g, geometry_after requests f g
                   = mkRect (x bounds) (y bounds) (width g) (height g))).
Proof.
  split.
  - intros Hnone. unfold SetBounds. run. now rewrite Hnone.
  - intros f Hf Hsize requests. repeat split.
    + unfold SetBounds. run. rewrite Hf.
      assert (Hc : (width bounds >? 0) && (height bounds >? 0) = false).
      { apply andb_false_iff.
        destruct Hsize; [left | right]; rewrite Z.gtb_ltb; apply Z.ltb_ge; lia. }
      rewrite Hc. now run.
    + unfold requests; simpl. destruct (f =? w); reflexivity.
    + unfold requests; simpl. destruct (f =? w); reflexivity.
    + intros w g Hw. unfold requests; simpl.
      destruct (Z.eqb_spec f w); [congruence | reflexivity].
    + intros g. unfold requests; simpl. now rewrite Z.eqb_refl.
Qed.

Lemma SetBounds_no_entry_or_position_only_witness :
  SetBounds 51 (mkRect 1 2 3 4) sample_state = Returned tt sample_state
  /\ SetBounds 50 (mkRect 5 6 0 10) sample_state
     = Returned tt
         (appended sample_state [ConfigureWindow 1000 3 [5; 6]; Flush]).
Proof.
  destruct (SetBounds_no_entry_or_position_only 51 (mkRect 1 2 3 4) sample_state)
    as [Hnone _].
  destruct (SetBounds_no_entry_or_position_only 50 (mkRect 5 6 0 10) sample_state)
    as [_ Hpos].
  split.
  - apply Hnone. reflexivity.
  - apply (Hpos 1000); [reflexivity | left; simpl; lia].
Defined.

(** ** OSSetWindowParent: the calls that change nothing *)

(** C9.  Un-embedding a window that has no entry returns normally and leaves
    the whole state as it was: nothing is appended to the trace (no request
    is issued), the registry, the thread and its flags are unchanged. *)
Theorem SetParent_zero_without_entry
    (X : xserver) (w : xid) (st : conn) :
  GetFrame (trackedWindows st) w = None ->
  OSSetWindowParent X w 0 st = Returned tt st.
Proof.
  intros Hnone. unfold OSSetWindowParent. run. now rewrite Hnone.
Qed.

Lemma SetParent_zero_without_entry_witness :
  OSSetWindowParent sample_server 51 0 sample_state = Returned tt sample_state.
Proof.
  apply SetParent_zero_without_entry. reflexivity.
Defined.

(** C2.  When the tree query on a non-zero [p] reports a parent equal to the
    root it reports, [SetParent(w, p)] returns after its two queries: the
    registry, the thread, its flags and the id allocator are unchanged, and
    the trace gains the two queries only (no CreateWindow, no
    ReparentWindow, no StartThread). *)
Theorem SetParent_toplevel_parent_is_noop
    (X : xserver) (w p : xid) (t : tree_reply) (st : conn) :
  p <> 0 ->
  query_tree X p = Some t ->
  t_parent t = t_root t ->
  exists st',
    OSSetWindowParent X w p st = Returned tt st'
    /\ st' = appended st [QueryTree p; GetGeometry w]
    /\ trackedWindows st' = trackedWindows st
    /\ windowThread st' = windowThread st
    /\ windowThreadExists st' = windowThreadExists st
    /\ windowThreadShouldRun st' = windowThreadShouldRun st
    /\ next_xid st' = next_xid st.
Proof.
  intros Hp Ht Hroot.
  exists (appended st [QueryTree p; GetGeometry w]).
  split; [| now repeat split].
  unfold OSSetWindowParent, xcb_query_tree, xcb_get_geometry.
  apply Z.eqb_neq in Hp. rewrite Hp. run.
  rewrite Ht, Hroot, Z.eqb_refl. reflexivity.
Qed.

Lemma SetParent_toplevel_parent_is_noop_witness :
  exists st',
    OSSetWindowParent sample_server 50 20 (initial 1000) = Returned tt st'
    /\ st' = appended (initial 1000) [QueryTree 20; GetGeometry 50]
    /\ trackedWindows st' = []
    /\ windowThread st' = NotJoinable
    /\ windowThreadExists st' = false
    /\ windowThreadShouldRun st' = false
    /\ next_xid st' = 1000.
Proof.
  apply (SetParent_toplevel_parent_is_noop sample_server 50 20 (mkTree 1 1 [21]));
    [lia | reflexivity | reflexivity].
Defined.

(** ** The queries of GetClientBounds *)

(** What [GetClientBounds] returns and the queries it issues depend on the
    server only, not on the state of the client. *)
Lemma GetClientBounds_loop_queries (fuel : nat) (X : xserver) :
  forall (w : xid) (r : geometry_reply) (ax ay : Z) (st st' : conn) (p : Z * Z),
    GetClientBounds_loop fuel X w r ax ay st = Returned p st' ->
    exists l,
      forallb is_query l = true
      /\ forall st2,
           GetClientBounds_loop fuel X w r ax ay st2
           = Returned p (appended st2 l).
Proof.
  induction fuel as [| fuel IH]; intros w r ax ay st st' p H; simpl in H.
  - discriminate.
  - unfold xcb_query_tree, xcb_get_geometry in H. revert H. run.
    destruct (query_tree X w) as [t |] eqn:Ht.
    + destruct (t_parent t =? g_root r) eqn:Hroot.
      * intros H; inversion H; subst. exists [QueryTree w].
        split; [reflexivity |]. intros st2. simpl.
        unfold xcb_query_tree. run. now rewrite Ht, Hroot.
      * run. destruct (get_geometry X (t_parent t)) as [r' |] eqn:Hg.
        -- intros H. apply IH in H as (l & Hl & Hall).
           exists ([QueryTree w; GetGeometry (t_parent t)] ++ l).
           split; [exact Hl |]. intros st2. simpl.
           unfold xcb_query_tree, xcb_get_geometry. run.
           rewrite Ht, Hroot. run. rewrite Hg, Hall.
           now rewrite appended_appended.
        -- intros H; inversion H; subst.
           exists [QueryTree w; GetGeometry (t_parent t)].
           split; [reflexivity |]. intros st2. simpl.
           unfold xcb_query_tree, xcb_get_geometry. run.
           rewrite Ht, Hroot. run. now rewrite Hg.
    + intros H; inversion H; subst. exists [QueryTree w].
      split; [reflexivity |]. intros st2. simpl.
      unfold xcb_query_tree. run. now rewrite Ht.
Qed.

Lemma GetClientBounds_queries (fuel : nat) (X : xserver) (h : xid)
    (st st' : conn) (b : JSRectangle) :
  GetClientBounds fuel X h st = Returned b st' ->
  exists l,
    forallb is_query l = true
    /\ forall st2, GetClientBounds fuel X h st2 = Returned b (appended st2 l).
Proof.
  unfold GetClientBounds, xcb_get_geometry. run.
  destruct (get_geometry X h) as [r |].
  - unfold bind.
    destruct (GetClientBounds_loop fuel X h r (g_x r) (g_y r)
                (appended st [GetGeometry h])) as [p st1 | | |] eqn:Hloop;
      try discriminate.
    intros H; inversion H; subst.
    apply GetClientBounds_loop_queries in Hloop as (l & Hl & Hall).
    exists ([GetGeometry h] ++ l). split; [exact Hl |].
    intros st2. rewrite Hall. unfold ret. now rewrite appended_appended.
  - intros H; inversion H; subst. exists [GetGeometry h].
    split; [reflexivity |]. intros st2. reflexivity.
Qed.

Lemma queries_hold_no_resource (l : list action) :
  forallb is_query l = true -> forallb holds_no_resource l = true.
Proof.
  induction l as [| a l IH]; simpl; [reflexivity |].
  intros H. apply andb_true_iff in H as [Ha Hl].
  rewrite (IH Hl). destruct a; simpl in Ha; try discriminate; reflexivity.
Qed.

Lemma GetClientBounds_trace (fuel : nat) (X : xserver) (h : xid)
    (st st' : conn) (b : JSRectangle) :
  GetClientBounds fuel X h st = Returned b st' ->
  exists l, st' = appended st l /\ forallb holds_no_resource l = true.
Proof.
  intros H. destruct (GetClientBounds_queries _ _ _ _ _ _ H) as (l & Hl & Hall).
  exists l. split; [| now apply queries_hold_no_resource].
  rewrite Hall in H. now inversion H.
Qed.

(** ** Capture *)

(** C7.  A mode other than Desktop and Window makes [Capture] throw the
    RangeError at once: the state at the throw is the state at the call, so
    nothing was appended to the trace (no request, no copy into a buffer). *)
Theorem Capture_unsupported_mode_throws
    (fuel : nat) (X : xserver) (wnd : xid) (raw : Z)
    (rects : list CaptureRect) (st : conn) :
  OSCaptureMulti fuel X wnd (OtherMode raw) rects st
  = Threw (RangeError "Capture mode not supported") st.
Proof. reflexivity. Qed.

Lemma desktop_copies_trace (d : xid) (offset : JSRectangle)
    (rects : list CaptureRect) (st : conn) :
  desktop_copies d offset rects st
  = Returned tt
      (appended st
         (map (fun r => ShmCopy d (data r) (size r)
                          (x (rect r) + x offset) (y (rect r) + y offset)
                          (width (rect r)) (height (rect r))) rects)).
Proof.
  revert st. induction rects as [| r rest IH]; intros st; simpl.
  - now rewrite appended_nil.
  - unfold XShmCapture_copy. run. rewrite IH. now rewrite appended_appended.
Qed.

Lemma window_copies_trace (d : xid) (rects : list CaptureRect) (st : conn) :
  window_copies d rects st
  = Returned tt
      (appended st
         (map (fun r => ShmCopy d (data r) (size r) (x (rect r)) (y (rect r))
                          (width (rect r)) (height (rect r))) rects)).
Proof.
  revert st. induction rects as [| r rest IH]; intros st; simpl.
  - now rewrite appended_nil.
  - unfold XShmCapture_copy. run. rewrite IH. now rewrite appended_appended.
Qed.

Lemma OSCaptureDesktopMulti_outcome
    (fuel : nat) (X : xserver) (wnd : xid) (rects : list CaptureRect)
    (st : conn) :
  OSCaptureDesktopMulti fuel X wnd rects st
  = match GetClientBounds fuel X wnd (appended st [ShmAttach (rootWindow X)])
    with
    | Returned offset st1 =>
        Returned tt
          (appended st1
             (map (fun r => ShmCopy (rootWindow X) (data r) (size r)
                              (x (rect r) + x offset) (y (rect r) + y offset)
                              (width (rect r)) (height (rect r))) rects
              ++ [ShmDetach (rootWindow X)]))
    | Threw e st1 => Threw e st1
    | Crashed why => Crashed why
    | Blocked => Blocked
    end.
Proof.
  unfold OSCaptureDesktopMulti, XShmCapture_new, XShmCapture_delete.
  unfold bind at 1. unfold emit at 1. unfold bind at 1.
  destruct (GetClientBounds fuel X wnd (appended st [ShmAttach (rootWindow X)]));
    try reflexivity.
  unfold bind. rewrite desktop_copies_trace. unfold emit.
  now rewrite appended_appended.
Qed.

(** C6.  In Desktop mode, with [offset] the client bounds to which the
    source resolves, [Capture] attaches a segment for the root window, issues
    the queries of the resolution, and then reads for each rectangle, in
    order, the region of the root window whose origin is the rectangle's
    origin moved by the position of [offset] and whose width and height are
    the rectangle's own; at the end it detaches the segment. *)
Theorem Capture_desktop_offsets_by_client_bounds
    (fuel : nat) (X : xserver) (wnd : xid) (rects : list CaptureRect)
    (st : conn) (offset : JSRectangle) :
  returns (GetClientBounds fuel X wnd st) offset ->
  exists queries,
    forallb is_query queries = true
    /\ OSCaptureMulti fuel X wnd Desktop rects st
       = Returned tt
           (appended st
              (ShmAttach (rootWindow X) :: queries
               ++ map (fun r => ShmCopy (rootWindow X) (data r) (size r)
                                  (x (rect r) + x offset)
                                  (y (rect r) + y offset)
                                  (width (rect r)) (height (rect r))) rects
               ++ [ShmDetach (rootWindow X)])).
Proof.
  intros [st' Hbounds].
  destruct (GetClientBounds_queries _ _ _ _ _ _ Hbounds) as (l & Hl & Hall).
  exists l. split; [exact Hl |].
  simpl. rewrite OSCaptureDesktopMulti_outcome, Hall.
  now rewrite !appended_appended.
Qed.

Lemma Capture_desktop_offsets_by_client_bounds_witness :
  exists queries,
    forallb is_query queries = true
    /\ OSCaptureMulti 5 sample_server 20 Desktop
         [mkCaptureRect (mkRect 10 10 50 50) 0 10000] (initial 1000)
       = Returned tt
           (appended (initial 1000)
              (ShmAttach 1 :: queries
               ++ [ShmCopy 1 0 10000 110 210 50 50]
               ++ [ShmDetach 1])).
Proof.
  apply (Capture_desktop_offsets_by_client_bounds 5 sample_server 20
           [mkCaptureRect (mkRect 10 10 50 50) 0 10000] (initial 1000)
           (mkRect 100 200 640 480)).
  eexists. reflexivity.
Defined.

(** *** Resources of a capture call *)

Lemma unreleased_neutral_app (l l2 : list action) (pix shm : list xid) :
  forallb holds_no_resource l = true ->
  unreleased (l ++ l2) pix shm = unreleased l2 pix shm.
Proof.
  revert pix shm. induction l as [| a l IH]; intros pix shm H; simpl in *.
  - reflexivity.
  - apply andb_true_iff in H as [Ha Hl].
    destruct a; simpl in Ha; try discriminate; now apply IH.
Qed.

Lemma copies_neutral {A} (f : A -> action) (l : list A) :
  (forall a, holds_no_resource (f a) = true) ->
  forallb holds_no_resource (map f l) = true.
Proof.
  intros Hf. induction l as [| a l IH]; simpl; [reflexivity |].
  now rewrite Hf, IH.
Qed.

Lemma GetClientBounds_never_throws (fuel : nat) (X : xserver) (h : xid)
    (st st' : conn) (e : exn) :
  GetClientBounds fuel X h st <> Threw e st'.
Proof.
  assert (Hloop : forall fuel w r ax ay st,
             GetClientBounds_loop fuel X w r ax ay st <> Threw e st').
  { clear. induction fuel as [| fuel IH]; intros w r ax ay st; simpl.
    - discriminate.
    - unfold xcb_query_tree, xcb_get_geometry. run.
      destruct (query_tree X w) as [t |]; [| discriminate].
      destruct (t_parent t =? g_root r); [discriminate |]. run.
      destruct (get_geometry X (t_parent t)); [apply IH | discriminate]. }
  unfold GetClientBounds, xcb_get_geometry. run.
  destruct (get_geometry X h) as [r |]; [| discriminate].
  unfold bind.
  destruct (GetClientBounds_loop fuel X h r (g_x r) (g_y r)
              (appended st [GetGeometry h])) eqn:H; try discriminate.
  intros Heq; inversion Heq; subst. now apply Hloop in H.
Qed.

(** C8.  In Window mode, when the geometry query on the pixmap just named
    has no reply, the call frees that pixmap and returns normally, without a
    single copy.  And whenever a capture call ends, by return or by throw,
    every pixmap named and every segment attached during the call has been
    released by the call. *)
Theorem Capture_releases_what_it_creates
    (fuel : nat) (X : xserver) (wnd : xid) (rects : list CaptureRect)
    (st : conn) :
  (get_geometry X (next_xid st) = None ->
   exists st',
     OSCaptureMulti fuel X wnd Window rects st = Returned tt st'
     /\ trace st' = trace st ++
          [CompositeRedirectWindow wnd XCB_COMPOSITE_REDIRECT_AUTOMATIC;
           CompositeNameWindowPixmap wnd (next_xid st);
           GetGeometry (next_xid st);
           FreePixmap (next_xid st)])
  /\
  (forall (mode : CaptureMode) (st' : conn),
     OSCaptureMulti fuel X wnd mode rects st = Returned tt st'
     \/ (exists e, OSCaptureMulti fuel X wnd mode rects st = Threw e st') ->
     exists l, trace st' = trace st ++ l /\ unreleased l [] [] = ([], [])).
Proof.
  split.
  - intros Hgeo. eexists. split.
    + unfold OSCaptureMulti, OSCaptureWindowMulti, xcb_get_geometry,
        xcb_generate_id. run. rewrite Hgeo. run. reflexivity.
    + simpl. now rewrite <- app_assoc.
  - intros mode st' H. destruct mode as [| | raw].
    + simpl in H. rewrite OSCaptureDesktopMulti_outcome in H.
      destruct (GetClientBounds fuel X wnd (appended st [ShmAttach (rootWindow X)]))
        as [offset st1 | e st1 | |] eqn:Hb.
      * destruct H as [H | [e H]]; [| discriminate].
        inversion H; subst; clear H.
        apply GetClientBounds_trace in Hb as (l & -> & Hl).
        eexists. split.
        -- simpl. rewrite <- !app_assoc. reflexivity.
        -- simpl. rewrite (unreleased_neutral_app l) by exact Hl.
           rewrite unreleased_neutral_app by now apply copies_neutral.
           simpl. destruct (Z.eq_dec (rootWindow X) (rootWindow X));
             [reflexivity | congruence].
      * now apply GetClientBounds_never_throws in Hb.
      * destruct H as [H | [e H]]; discriminate.
      * destruct H as [H | [e H]]; discriminate.
    + simpl in H.
      unfold OSCaptureWindowMulti, xcb_get_geometry, xcb_generate_id,
        XShmCapture_new, XShmCapture_delete in H.
      revert H. run. destruct (get_geometry X (next_xid st)) as [g |].
      * unfold bind. rewrite window_copies_trace. run.
        intros [H | [e H]]; [| discriminate]. inversion H; subst; clear H.
        eexists. split.
        -- simpl. rewrite <- !app_assoc. reflexivity.
        -- simpl. destruct (Z.eq_dec (next_xid st) (next_xid st));
             [| congruence].
           rewrite unreleased_neutral_app by now apply copies_neutral.
           simpl. destruct (Z.eq_dec (next_xid st) (next_xid st));
             [reflexivity | congruence].
      * intros [H | [e H]]; [| discriminate]. inversion H; subst; clear H.
        eexists. split.
        -- simpl. rewrite <- !app_assoc. reflexivity.
        -- simpl. destruct (Z.eq_dec (next_xid st) (next_xid st));
             [reflexivity | congruence].
    + simpl in H. unfold throw in H.
      destruct H as [H | [e H]]; [discriminate |].
      inversion H; subst. exists []. now rewrite app_nil_r.
Qed.

Lemma Capture_releases_what_it_creates_witness :
  (exists st',
     OSCaptureMulti 0 sample_server 50 Window
       [mkCaptureRect (mkRect 0 0 8 8) 0 256] (initial 1000) = Returned tt st'
     /\ trace st' = [CompositeRedirectWindow 50 0;
                     CompositeNameWindowPixmap 50 1000;
                     GetGeometry 1000; FreePixmap 1000])
  /\
  (exists l,
     trace (appended (initial 1000)
              [ShmAttach 1; GetGeometry 20; QueryTree 20;
               ShmCopy 1 0 256 100 200 8 8; ShmDetach 1]) = [] ++ l
     /\ unreleased l [] [] = ([], [])).
Proof.
  split.
  - apply (Capture_releases_what_it_creates 0 sample_server 50
             [mkCaptureRect (mkRect 0 0 8 8) 0 256] (initial 1000)).
    reflexivity.
  - apply (Capture_releases_what_it_creates 5 sample_server 20
             [mkCaptureRect (mkRect 0 0 8 8) 0 256] (initial 1000)
           : _ /\ _) with (mode := Desktop).
    left. reflexivity.
Defined.

(** ** GetClientBounds *)

Lemma int16_in_range (z : Z) : in_int16 z -> int16 z = z.
Proof.
  unfold in_int16, int16. intros H. rewrite Z.mod_small; lia.
Qed.

Lemma int16_add_l (a b : Z) : int16 (int16 a + b) = int16 (a + b).
Proof.
  unfold int16.
  replace ((a + 32768) mod 65536 - 32768 + b + 32768)
    with ((a + 32768) mod 65536 + b) by lia.
  rewrite Zplus_mod_idemp_l. f_equal. f_equal. lia.
Qed.

(** The position the loop ends with, from the running position [a] and the
    offsets [d] read after it. *)
Lemma loop_position (a d rest : Z) :
  int16 (int16 (a + d) + rest) = int16 (a + (d + rest)).
Proof.
  rewrite int16_add_l. f_equal. lia.
Qed.

Lemma GetClientBounds_loop_result (X : xserver) :
  forall (w : xid) (r : geometry_reply) (rs : list geometry_reply),
    ancestors_read X w r rs ->
    forall (fuel : nat) (ax ay : Z) (st : conn),
      (List.length rs < fuel)%nat ->
      returns (GetClientBounds_loop fuel X w r ax ay st)
        (match rs with
         | [] => (ax, ay)
         | _ => (int16 (ax + sum_x rs), int16 (ay + sum_y rs))
         end).
Proof.
  induction 1 as [w r Ht | w r t Ht Hroot | w r t Ht Hroot Hg
                  | w r t r' rs Ht Hroot Hg Hrest IH];
    intros fuel ax ay st Hfuel;
    (destruct fuel as [| fuel]; [simpl in Hfuel; lia |]);
    simpl; unfold xcb_query_tree, xcb_get_geometry; run; rewrite Ht.
  - eexists; reflexivity.
  - apply Z.eqb_eq in Hroot. rewrite Hroot. eexists; reflexivity.
  - apply Z.eqb_neq in Hroot. rewrite Hroot. run. rewrite Hg.
    eexists; reflexivity.
  - apply Z.eqb_neq in Hroot. rewrite Hroot. run. rewrite Hg.
    simpl in Hfuel.
    destruct (IH fuel (int16 (ax + g_x r')) (int16 (ay + g_y r'))
                (appended st [QueryTree w; GetGeometry (t_parent t)])
                ltac:(lia)) as [st' Hst'].
    exists st'. rewrite Hst'. f_equal.
    destruct rs as [| r'' rs'].
    + simpl. now rewrite !Z.add_0_r.
    + unfold sum_x, sum_y. cbn [fold_right].
      now rewrite !loop_position.
Qed.

(** C4, as the code has it.  When the geometry query on the handle fails,
    the zeroed bounds are returned.  When it succeeds, the result carries the
    handle's own width and height, and its position is the handle's own
    offset plus the offsets of the ancestors read before the walk stopped (at
    an ancestor whose parent is the root, or at the first failed query),
    taken in 16-bit two's complement: it is the exact sum whenever that sum
    lies between -32768 and 32767. *)
Theorem GetClientBounds_sums_offsets_in_int16 (X : xserver) (h : xid) :
  (get_geometry X h = None ->
   forall fuel st, returns (GetClientBounds fuel X h st) JSRectangle_zero)
  /\
  (forall (r : geometry_reply) (rs : list geometry_reply),
     get_geometry X h = Some r ->
     in_int16 (g_x r) -> in_int16 (g_y r) ->
     ancestors_read X h r rs ->
     forall fuel st,
       (List.length rs < fuel)%nat ->
       exists b,
         returns (GetClientBounds fuel X h st) b
         /\ width b = g_width r /\ height b = g_height r
         /\ x b = int16 (g_x r + sum_x rs)
         /\ y b = int16 (g_y r + sum_y rs)
         /\ (in_int16 (g_x r + sum_x rs) -> x b = g_x r + sum_x rs)
         /\ (in_int16 (g_y r + sum_y rs) -> y b = g_y r + sum_y rs)).
Proof.
  split.
  - intros Hg fuel st. unfold GetClientBounds, xcb_get_geometry. run.
    rewrite Hg. eexists; reflexivity.
  - intros r rs Hg Hx Hy Hwalk fuel st Hfuel.
    destruct (GetClientBounds_loop_result X h r rs Hwalk fuel (g_x r) (g_y r)
                (appended st [GetGeometry h]) Hfuel) as [st' Hst'].
    exists (mkRect (int16 (g_x r + sum_x rs)) (int16 (g_y r + sum_y rs))
                   (g_width r) (g_height r)).
    repeat split; simpl; try (intros; now apply int16_in_range).
    unfold GetClientBounds, xcb_get_geometry. run. rewrite Hg.
    unfold bind. rewrite Hst'. exists st'. unfold ret. f_equal.
    destruct rs; simpl.
    + rewrite !Z.add_0_r, !int16_in_range by assumption. reflexivity.
    + reflexivity.
Qed.

Lemma GetClientBounds_sums_offsets_in_int16_witness :
  returns (GetClientBounds 0 sample_server 99 (initial 1000)) JSRectangle_zero
  /\ exists b,
       returns (GetClientBounds 3 sample_server 22 (initial 1000)) b
       /\ width b = 30 /\ height b = 40 /\ x b = 106 /\ y b = 208.
Proof.
  split.
  - apply (GetClientBounds_sums_offsets_in_int16 sample_server 99).
    reflexivity.
  - destruct (GetClientBounds_sums_offsets_in_int16 sample_server 22)
      as [_ Hwalk].
    destruct (Hwalk (mkGeometry 1 1 1 30 40)
                [mkGeometry 1 5 7 300 400; mkGeometry 1 100 200 640 480])
      with (fuel := 3%nat) (st := initial 1000)
      as (b & Hret & Hw & Hh & _ & _ & Hx & Hy).
    + reflexivity.
    + unfold in_int16; simpl; lia.
    + unfold in_int16; simpl; lia.
    + eapply read_ancestor with (t := mkTree 1 21 []);
        [reflexivity | simpl; lia | reflexivity |].
      eapply read_ancestor with (t := mkTree 1 20 [22]);
        [reflexivity | simpl; lia | reflexivity |].
      eapply read_parent_is_root with (t := mkTree 1 1 [21]); reflexivity.
    + simpl; lia.
    + exists b. repeat split; try assumption.
      * apply Hx. unfold in_int16; simpl; lia.
      * apply Hy. unfold in_int16; simpl; lia.
Defined.

(** The position is not the exact sum in general: window 31 of [far_server]
    sits at 20000 inside a window at 20000, and the call returns -25536. *)
Lemma GetClientBounds_exact_sum_fails :
  ~ (forall (X : xserver) (h : xid) (r : geometry_reply)
            (rs : list geometry_reply) (fuel : nat) (st : conn),
       get_geometry X h = Some r ->
       Forall (fun r' => in_int16 (g_x r') /\ in_int16 (g_y r')) (r :: rs) ->
       ancestors_read X h r rs ->
       (List.length rs < fuel)%nat ->
       returns (GetClientBounds fuel X h st)
         (mkRect (g_x r + sum_x rs) (g_y r + sum_y rs)
                 (g_width r) (g_height r))).
Proof.
  intros Hall.
  destruct (Hall far_server 31 (mkGeometry 1 20000 20000 10 10)
              [mkGeometry 1 20000 20000 100 100] 3%nat (initial 1000))
    as [st' Hst'].
  - reflexivity.
  - repeat constructor; simpl; lia.
  - eapply read_ancestor with (t := mkTree 1 30 []);
      [reflexivity | simpl; lia | reflexivity |].
    eapply read_parent_is_root with (t := mkTree 1 1 [31]); reflexivity.
  - simpl; lia.
  - vm_compute in Hst'. discriminate.
Qed.

(** ** The event thread *)

Lemma thread_only_refl (st : conn) : thread_only st st.
Proof. now repeat split. Qed.

Lemma thread_only_trans (st1 st2 st3 : conn) :
  thread_only st1 st2 -> thread_only st2 st3 -> thread_only st1 st3.
Proof.
  unfold thread_only. intros (? & ? & ? & ?) (? & ? & ? & ?).
  repeat split; congruence.
Qed.

Lemma WindowThread_step_fields (ev : option Z) (st : conn) :
  thread_only st (WindowThread_step ev st).
Proof.
  unfold WindowThread_step.
  destruct (windowThread st); [apply thread_only_refl | | |
                               apply thread_only_refl].
  - destruct (windowThreadShouldRun st); now repeat split.
  - destruct ev; now repeat split.
Qed.

Lemma WindowThread_step_inv (ev : option Z) (st : conn) :
  thread_inv st -> thread_inv (WindowThread_step ev st).
Proof.
  unfold thread_inv, WindowThread_step. intros [Hex Hreg].
  destruct (windowThread st) eqn:Ht, (windowThreadShouldRun st), ev;
    simpl; rewrite ?Ht; split; auto; discriminate.
Qed.

Lemma WindowThread_run_fields (evs : list (option Z)) :
  forall st st', WindowThread_run evs st = Some st' -> thread_only st st'.
Proof.
  induction evs as [| ev evs IH]; intros st st' H; simpl in H.
  - destruct (windowThread st) eqn:Ht; try discriminate;
      try (inversion H; subst; now apply thread_only_refl).
    destruct (windowThreadShouldRun st) eqn:Hr; [discriminate |].
    inversion H; subst. apply WindowThread_step_fields.
  - destruct (windowThread st) eqn:Ht;
      try (inversion H; subst; now apply thread_only_refl).
    + destruct (windowThreadShouldRun st) eqn:Hr.
      * apply IH in H.
        eapply thread_only_trans; [apply (WindowThread_step_fields ev) |].
        eapply thread_only_trans; [apply (WindowThread_step_fields ev) |].
        exact H.
      * inversion H; subst. apply WindowThread_step_fields.
    + apply IH in H.
      eapply thread_only_trans; [apply (WindowThread_step_fields ev) |].
      exact H.
Qed.

(** Whenever [WindowThread] has run to its end, the thread object holds a
    finished thread and [windowThreadExists] is false. *)
Lemma WindowThread_run_ends (evs : list (option Z)) :
  forall st st',
    thread_inv st ->
    windowThread st <> NotJoinable ->
    WindowThread_run evs st = Some st' ->
    windowThread st' = Finished /\ windowThreadExists st' = false.
Proof.
  induction evs as [| ev evs IH]; intros st st' Hinv Hj H; simpl in H.
  - destruct (windowThread st) eqn:Ht; try congruence.
    + destruct (windowThreadShouldRun st) eqn:Hr; [discriminate |].
      inversion H; subst. unfold WindowThread_step. now rewrite Ht, Hr.
    + inversion H; subst. destruct Hinv as [Hex _]. rewrite Ht in Hex.
      now rewrite Ht.
  - destruct (windowThread st) eqn:Ht; try congruence.
    + destruct (windowThreadShouldRun st) eqn:Hr.
      * assert (Hstep : WindowThread_step ev st = at_thread (InWait gc) st).
        { unfold WindowThread_step. now rewrite Ht, Hr. }
        rewrite Hstep in H.
        destruct ev as [t |].
        -- eapply IH; [| | exact H].
           ++ apply WindowThread_step_inv.
              rewrite <- Hstep. now apply WindowThread_step_inv.
           ++ unfold WindowThread_step; simpl. discriminate.
        -- unfold WindowThread_step in H; simpl in H.
           destruct evs; simpl in H; inversion H; subst; now simpl.
      * inversion H; subst. unfold WindowThread_step. now rewrite Ht, Hr.
    + destruct ev as [t |].
      * eapply IH; [| | exact H].
        -- now apply WindowThread_step_inv.
        -- unfold WindowThread_step. rewrite Ht. simpl. discriminate.
      * unfold WindowThread_step in H. rewrite Ht in H.
        destruct evs; simpl in H; inversion H; subst; now simpl.
    + inversion H; subst. destruct Hinv as [Hex _]. rewrite Ht in Hex.
      now rewrite Ht.
Qed.

(** With the run flag cleared, one more value from [xcb_wait_for_event] is
    enough for [WindowThread] to return. *)
Lemma WindowThread_run_returns (evs : list (option Z)) (st : conn) :
  windowThreadShouldRun st = false ->
  evs <> [] ->
  exists st', WindowThread_run evs st = Some st'.
Proof.
  intros Hr Hevs. destruct evs as [| ev evs]; [congruence |]. simpl.
  destruct (windowThread st) eqn:Ht; try (eexists; reflexivity).
  - rewrite Hr. eexists; reflexivity.
  - unfold WindowThread_step. rewrite Ht.
    destruct ev as [t |].
    + destruct evs; simpl; rewrite Hr; eexists; reflexivity.
    + destruct evs; simpl; eexists; reflexivity.
Qed.

(** ** OSSetWindowParent, branch by branch *)

(** Unfolds the primitives of a call on the state. *)
Ltac run_state :=
  unfold xcb_query_tree, xcb_get_geometry, xcb_generate_id, push_back, clear,
    erase_window, set_trackedWindows, set_windowThreadShouldRun,
    set_windowThreadExists, start_thread, set_windowThread, thread_join;
  run.

Lemma SetParent_no_tree (X : xserver) (w p : xid) (st : conn) :
  p <> 0 ->
  query_tree X p = None ->
  OSSetWindowParent X w p st
  = Returned tt (appended st [QueryTree p; GetGeometry w]).
Proof.
  intros Hp Ht. apply Z.eqb_neq in Hp.
  unfold OSSetWindowParent. rewrite Hp. run_state. now rewrite Ht.
Qed.

Lemma SetParent_toplevel (X : xserver) (w p : xid) (t : tree_reply)
    (st : conn) :
  p <> 0 ->
  query_tree X p = Some t ->
  t_parent t = t_root t ->
  OSSetWindowParent X w p st
  = Returned tt (appended st [QueryTree p; GetGeometry w]).
Proof.
  intros Hp Ht Hroot. apply Z.eqb_neq in Hp.
  unfold OSSetWindowParent. rewrite Hp. run_state.
  now rewrite Ht, Hroot, Z.eqb_refl.
Qed.

Lemma SetParent_null_geometry (X : xserver) (w p : xid) (t : tree_reply)
    (st : conn) :
  p <> 0 ->
  query_tree X p = Some t ->
  t_parent t <> t_root t ->
  get_geometry X w = None ->
  OSSetWindowParent X w p st = Crashed NullDereference.
Proof.
  intros Hp Ht Hroot Hg. apply Z.eqb_neq in Hp, Hroot.
  unfold OSSetWindowParent. rewrite Hp. run_state.
  now rewrite Ht, Hroot, Hg.
Qed.

(** The embedding branch: the new entry carries the id the allocator hands
    out first; a thread is started, on a second id, when none exists. *)
Lemma SetParent_embeds (X : xserver) (w p : xid) (t : tree_reply)
    (g : geometry_reply) (st : conn) :
  p <> 0 ->
  query_tree X p = Some t ->
  t_parent t <> t_root t ->
  get_geometry X w = Some g ->
  let reg := trackedWindows st ++ [mkTrackedWindow w (next_xid st)] in
  if windowThreadExists st then
    exists tr,
      OSSetWindowParent X w p st
      = Returned tt (mkConn reg (windowThread st) true
                            (windowThreadShouldRun st) (next_xid st + 1) tr)
  else
    match windowThread st with
    | NotJoinable =>
        exists tr,
          OSSetWindowParent X w p st
          = Returned tt (mkConn reg (AtLoopHead (next_xid st + 1)) true true
                                (next_xid st + 1 + 1) tr)
    | _ => OSSetWindowParent X w p st = Crashed StdTerminate
    end.
Proof.
  intros Hp Ht Hroot Hg reg. apply Z.eqb_neq in Hp, Hroot.
  unfold OSSetWindowParent. rewrite Hp. run_state.
  rewrite Ht, Hroot. simpl. rewrite Hg. run_state.
  destruct (windowThreadExists st) eqn:Hex; simpl.
  - eexists. unfold appended; simpl. reflexivity.
  - destruct (windowThread st) eqn:Hthr; simpl; try reflexivity.
    eexists. unfold appended; simpl. reflexivity.
Qed.

Lemma SetParent_unembed_last (X : xserver) (w f : xid) (st : conn) :
  GetFrame (trackedWindows st) w = Some f ->
  List.length (trackedWindows st) = 1%nat ->
  let st1 :=
    mkConn (trackedWindows st) (windowThread st) (windowThreadExists st)
           false (next_xid st)
           (trace st ++ [ReparentWindow w (rootWindow X) 0 0;
                         StoreShouldRun false; DestroyWindow f; Flush;
                         JoinThread]) in
  OSSetWindowParent X w 0 st
  = match windowThread st with
    | NotJoinable => Threw system_error st1
    | _ =>
        match WindowThread_run (wait_for_event X) st1 with
        | Some st2 =>
            Returned tt
              (mkConn [] NotJoinable (windowThreadExists st2)
                      (windowThreadShouldRun st2) (next_xid st2)
                      (trace st2 ++ [ClearRegistry]))
        | None => Blocked
        end
    end.
Proof.
  intros Hf Hlen st1. unfold OSSetWindowParent. run. rewrite Hf. run.
  rewrite Hlen. simpl. run_state.
  assert (Hst1 : appended
                   (mkConn (trackedWindows st) (windowThread st)
                      (windowThreadExists st) false (next_xid st)
                      ((trace st ++ [ReparentWindow w (rootWindow X) 0 0])
                       ++ [StoreShouldRun false]))
                   [DestroyWindow f; Flush; JoinThread] = st1).
  { unfold appended, st1; simpl. now rewrite <- !app_assoc. }
  rewrite Hst1.
  destruct (windowThread st); try reflexivity;
    destruct (WindowThread_run (wait_for_event X) st1); reflexivity.
Qed.

Lemma SetParent_unembed_other (X : xserver) (w f : xid) (st : conn) :
  GetFrame (trackedWindows st) w = Some f ->
  List.length (trackedWindows st) <> 1%nat ->
  OSSetWindowParent X w 0 st
  = Returned tt
      (mkConn (filter (fun tw => negb (window tw =? w)) (trackedWindows st))
              (windowThread st) (windowThreadExists st)
              (windowThreadShouldRun st) (next_xid st)
              (trace st ++ [ReparentWindow w (rootWindow X) 0 0;
                            DestroyWindow f; Flush; EraseWindow w])).
Proof.
  intros Hf Hlen. unfold OSSetWindowParent. run. rewrite Hf. run.
  assert (Hne : (Z.of_nat (List.length (trackedWindows st)) =? 1) = false)
    by (apply Z.eqb_neq; lia).
  rewrite Hne. run_state. now rewrite <- !app_assoc.
Qed.

(** ** Invariants along a run *)

Lemma registry_untouched_appended (st : conn) (l : list action) :
  registry_untouched st (appended st l).
Proof. unfold registry_untouched; simpl. repeat split; lia. Qed.

Lemma registry_untouched_invs (st st' : conn) :
  registry_untouched st st' ->
  thread_inv st /\ frames_inv st ->
  thread_inv st' /\ frames_inv st'.
Proof.
  unfold registry_untouched, thread_inv, frames_inv.
  intros (Hreg & Hthr & Hex & _ & Hnext) [[H1 H2] [H3 H4]].
  rewrite Hreg, Hthr, Hex. repeat split; auto.
  eapply Forall_impl; [| exact H4]. simpl; intros; lia.
Qed.

Lemma SetBounds_untouched (h : xid) (b : JSRectangle) (st : conn) :
  exists l, SetBounds h b st = Returned tt (appended st l).
Proof.
  unfold SetBounds. run.
  destruct (GetFrame (trackedWindows st) h) as [f |].
  - destruct ((width b >? 0) && (height b >? 0)); run; eexists; reflexivity.
  - exists []. now rewrite appended_nil.
Qed.

Lemma Capture_untouched (fuel : nat) (X : xserver) (wnd : xid)
    (mode : CaptureMode) (rects : list CaptureRect) (st st' : conn) :
  OSCaptureMulti fuel X wnd mode rects st = Returned tt st'
  \/ (exists e, OSCaptureMulti fuel X wnd mode rects st = Threw e st') ->
  registry_untouched st st'.
Proof.
  intros H. destruct mode as [| | raw]; simpl in H.
  - rewrite OSCaptureDesktopMulti_outcome in H.
    destruct (GetClientBounds fuel X wnd (appended st [ShmAttach (rootWindow X)]))
      as [offset st1 | e st1 | |] eqn:Hb.
    + destruct H as [H | [e H]]; [| discriminate].
      inversion H; subst; clear H.
      apply GetClientBounds_trace in Hb as (l & -> & _).
      rewrite !appended_appended. apply registry_untouched_appended.
    + now apply GetClientBounds_never_throws in Hb.
    + destruct H as [H | [e H]]; discriminate.
    + destruct H as [H | [e H]]; discriminate.
  - unfold OSCaptureWindowMulti, XShmCapture_new, XShmCapture_delete in H.
    revert H. run_state.
    destruct (get_geometry X (next_xid st)) as [g |].
    + unfold bind. rewrite window_copies_trace. run.
      intros [H | [e H]]; [| discriminate]. inversion H; subst; clear H.
      unfold registry_untouched; simpl. repeat split; lia.
    + intros [H | [e H]]; [| discriminate]. inversion H; subst; clear H.
      unfold registry_untouched; simpl. repeat split; lia.
  - unfold throw in H. destruct H as [H | [e H]]; [discriminate |].
    inversion H; subst. unfold registry_untouched. repeat split; lia.
Qed.

Lemma GetFrame_Some_in (reg : list TrackedWindow) (w f : xid) :
  GetFrame reg w = Some f -> reg <> [].
Proof. destruct reg; [discriminate | discriminate]. Qed.

Lemma GetFrame_None_not_in (reg : list TrackedWindow) (w : xid) :
  GetFrame reg w = None -> ~ In w (map window reg).
Proof.
  induction reg as [| tw reg IH]; simpl; intros H; [tauto |].
  destruct (Z.eqb_spec (window tw) w); [discriminate |].
  intros [Heq | Hin]; [congruence | now apply IH].
Qed.

Lemma NoDup_map_filter {A B} (f : A -> B) (keep : A -> bool) (l : list A) :
  NoDup (map f l) -> NoDup (map f (filter keep l)).
Proof.
  induction l as [| a l IH]; simpl; intros H; [constructor |].
  inversion H as [| ? ? Hnotin Hrest]; subst.
  destruct (keep a); simpl; [| now apply IH].
  constructor; [| now apply IH].
  intros Hin. apply Hnotin.
  apply in_map_iff in Hin as (a' & Ha' & Hin).
  apply filter_In in Hin as [Hin _].
  apply in_map_iff. now exists a'.
Qed.

Lemma NoDup_snoc {A} (l : list A) (a : A) :
  NoDup l -> ~ In a l -> NoDup (l ++ [a]).
Proof.
  intros Hl Ha. apply NoDup_app; auto.
  - repeat constructor. intros [].
  - intros b Hb [Heq | []]. congruence.
Qed.

(** A call of [OSSetWindowParent] that ends keeps both invariants. *)
Lemma SetParent_invs (X : xserver) (w p : xid) (st st' : conn) :
  OSSetWindowParent X w p st = Returned tt st'
  \/ (exists e, OSSetWindowParent X w p st = Threw e st') ->
  thread_inv st /\ frames_inv st ->
  thread_inv st' /\ frames_inv st'.
Proof.
  intros H Hinv.
  destruct (Z.eq_dec p 0) as [-> | Hp].
  - destruct (GetFrame (trackedWindows st) w) as [f |] eqn:Hf.
    + destruct (Nat.eq_dec (List.length (trackedWindows st)) 1) as [Hlen | Hlen].
      * rewrite (SetParent_unembed_last X w f st Hf Hlen) in H.
        destruct Hinv as [[Hex Hjoin] Hframes].
        pose proof (Hjoin (GetFrame_Some_in _ _ _ Hf)) as Hj.
        match type of H with
        | context [WindowThread_run ?evs ?s] =>
            destruct (WindowThread_run evs s) as [st2 |] eqn:Hrun
        end.
        -- assert (Hend : windowThread st2 = Finished
                           /\ windowThreadExists st2 = false).
           { eapply WindowThread_run_ends; [| | exact Hrun].
             - split; simpl; auto.
             - exact Hj. }
           destruct Hend as [_ Hex2].
           destruct (windowThread st) eqn:Hthr; [congruence | | |];
             (destruct H as [H | [e H]]; [| discriminate]);
             inversion H; subst; clear H;
             (split; [split; simpl; [exact Hex2 | congruence]
                     | split; simpl; constructor]).
        -- destruct (windowThread st) eqn:Hthr; [congruence | | |];
             destruct H as [H | [e H]]; discriminate.
      * rewrite (SetParent_unembed_other X w f st Hf Hlen) in H.
        destruct H as [H | [e H]]; [| discriminate].
        inversion H; subst; clear H.
        destruct Hinv as [[Hex Hjoin] [Hnd Hlt]].
        split; split; simpl; auto.
        -- intros _. apply Hjoin. now apply GetFrame_Some_in in Hf.
        -- now apply NoDup_map_filter.
        -- apply Forall_forall. intros tw Htw.
           apply filter_In in Htw as [Htw _].
           rewrite Forall_forall in Hlt. now apply Hlt.
    + unfold OSSetWindowParent in H. revert H. run. rewrite Hf.
      intros [H | [e H]]; [| discriminate]. inversion H; subst. exact Hinv.
  - destruct (query_tree X p) as [t |] eqn:Ht.
    + destruct (Z.eq_dec (t_parent t) (t_root t)) as [Hroot | Hroot].
      * rewrite (SetParent_toplevel X w p t st Hp Ht Hroot) in H.
        destruct H as [H | [e H]]; [| discriminate]. inversion H; subst.
        eapply registry_untouched_invs; [| exact Hinv].
        apply registry_untouched_appended.
      * destruct (get_geometry X w) as [g |] eqn:Hg.
        -- pose proof (SetParent_embeds X w p t g st Hp Ht Hroot Hg) as Hem.
           simpl in Hem.
           destruct Hinv as [[Hex Hjoin] [Hnd Hlt]].
           assert (Hfresh : ~ In (next_xid st) (map frame (trackedWindows st))).
           { intros Hin. apply in_map_iff in Hin as (tw & Heq & Hin).
             rewrite Forall_forall in Hlt. apply Hlt in Hin. lia. }
           destruct (windowThreadExists st) eqn:Hexists.
           ++ destruct Hem as [tr Hem]. rewrite Hem in H.
              destruct H as [H | [e H]]; [| discriminate].
              inversion H; subst; clear H.
              split; split; simpl.
              ** exact Hex.
              ** intros _. destruct (windowThread st); simpl in Hex;
                   congruence.
              ** rewrite map_app. simpl. now apply NoDup_snoc.
              ** apply Forall_app. split.
                 --- eapply Forall_impl; [| exact Hlt]. simpl; intros; lia.
                 --- repeat constructor. simpl. lia.
           ++ destruct (windowThread st) eqn:Hthr;
                try (rewrite Hem in H; destruct H as [H | [e H]]; discriminate).
              destruct Hem as [tr Hem]. rewrite Hem in H.
              destruct H as [H | [e H]]; [| discriminate].
              inversion H; subst; clear H.
              split; split; simpl.
              ** reflexivity.
              ** discriminate.
              ** rewrite map_app. simpl. now apply NoDup_snoc.
              ** apply Forall_app. split.
                 --- eapply Forall_impl; [| exact Hlt]. simpl; intros; lia.
                 --- repeat constructor. simpl. lia.
        -- rewrite (SetParent_null_geometry X w p t st Hp Ht Hroot Hg) in H.
           destruct H as [H | [e H]]; discriminate.
    + rewrite (SetParent_no_tree X w p st Hp Ht) in H.
      destruct H as [H | [e H]]; [| discriminate]. inversion H; subst.
      eapply registry_untouched_invs; [| exact Hinv].
      apply registry_untouched_appended.
Qed.

Lemma step_invs (e : event) (st st' : conn) :
  step e st = Some st' ->
  thread_inv st /\ frames_inv st ->
  thread_inv st' /\ frames_inv st'.
Proof.
  intros Hstep Hinv. destruct e as [c | ev]; simpl in Hstep.
  - destruct c as [X w p | h b | fuel X wnd mode rects]; simpl in Hstep.
    + destruct (OSSetWindowParent X w p st) as [[] s | e s | |] eqn:Hcall;
        inversion Hstep; subst; clear Hstep;
        (eapply SetParent_invs; [| exact Hinv]);
        [left; exact Hcall | right; exists e; exact Hcall].
    + destruct (SetBounds_untouched h b st) as [l Hl]. rewrite Hl in Hstep.
      inversion Hstep; subst.
      eapply registry_untouched_invs; [| exact Hinv].
      apply registry_untouched_appended.
    + destruct (OSCaptureMulti fuel X wnd mode rects st) as [[] s | e s | |]
        eqn:Hcall; inversion Hstep; subst; clear Hstep;
        (eapply registry_untouched_invs; [| exact Hinv]);
        (eapply Capture_untouched);
        [left; exact Hcall | right; exists e; exact Hcall].
  - inversion Hstep; subst; clear Hstep. destruct Hinv as [Hthr [Hnd Hlt]].
    split; [now apply WindowThread_step_inv |].
    destruct (WindowThread_step_fields ev st) as (Hreg & Hnext & _ & _).
    unfold frames_inv. now rewrite Hreg, Hnext.
Qed.

Lemma replay_invs (evs : list event) :
  forall st st',
    replay evs st = Some st' ->
    thread_inv st /\ frames_inv st ->
    thread_inv st' /\ frames_inv st'.
Proof.
  induction evs as [| e evs IH]; intros st st' H Hinv; simpl in H.
  - now inversion H; subst.
  - destruct (step e st) as [st1 |] eqn:Hstep; [| discriminate].
    eapply IH; [exact H |]. eapply step_invs; eauto.
Qed.

Lemma initial_invs (base : xid) :
  thread_inv (initial base) /\ frames_inv (initial base).
Proof.
  repeat split; simpl; try constructor. congruence.
Qed.

Lemma reachable_invs (st : conn) :
  reachable st -> thread_inv st /\ frames_inv st.
Proof.
  intros (base & evs & H). eapply replay_invs; [exact H |].
  apply initial_invs.
Qed.

(** The windows of the registry stay distinct over an event whose embed
    request, if it is one, names a window without an entry. *)
Lemma step_windows (e : event) (st st' : conn) :
  step e st = Some st' ->
  embeds_fresh [e] st = true ->
  NoDup (map window (trackedWindows st)) ->
  NoDup (map window (trackedWindows st')).
Proof.
  intros Hstep Hfresh Hnd. destruct e as [c | ev]; simpl in Hstep.
  - destruct c as [X w p | h b | fuel X wnd mode rects]; simpl in Hstep.
    + simpl in Hfresh. apply andb_true_iff in Hfresh as [Hfresh _].
      destruct (Z.eq_dec p 0) as [-> | Hp].
      * destruct (GetFrame (trackedWindows st) w) as [f |] eqn:Hf.
        -- destruct (Nat.eq_dec (List.length (trackedWindows st)) 1)
             as [Hlen | Hlen].
           ++ rewrite (SetParent_unembed_last X w f st Hf Hlen) in Hstep.
              match type of Hstep with
              | context [WindowThread_run ?evs ?s] =>
                  destruct (WindowThread_run evs s) as [st2 |]
              end;
                destruct (windowThread st);
                inversion Hstep; subst; simpl; auto; constructor.
           ++ rewrite (SetParent_unembed_other X w f st Hf Hlen) in Hstep.
              inversion Hstep; subst; simpl. now apply NoDup_map_filter.
        -- unfold OSSetWindowParent in Hstep. revert Hstep. run. rewrite Hf.
           intros Hstep. now inversion Hstep; subst.
      * apply Z.eqb_neq in Hp. rewrite Hp in Hfresh. apply Z.eqb_neq in Hp.
        destruct (GetFrame (trackedWindows st) w) eqn:Hf; [discriminate |].
        apply GetFrame_None_not_in in Hf.
        destruct (query_tree X p) as [t |] eqn:Ht.
        -- destruct (Z.eq_dec (t_parent t) (t_root t)) as [Hroot | Hroot].
           ++ rewrite (SetParent_toplevel X w p t st Hp Ht Hroot) in Hstep.
              now inversion Hstep; subst.
           ++ destruct (get_geometry X w) as [g |] eqn:Hg.
              ** pose proof (SetParent_embeds X w p t g st Hp Ht Hroot Hg)
                   as Hem.
                 simpl in Hem.
                 destruct (windowThreadExists st).
                 --- destruct Hem as [tr Hem]. rewrite Hem in Hstep.
                     inversion Hstep; subst; simpl.
                     rewrite map_app. now apply NoDup_snoc.
                 --- destruct (windowThread st);
                       try (rewrite Hem in Hstep; discriminate).
                     destruct Hem as [tr Hem]. rewrite Hem in Hstep.
                     inversion Hstep; subst; simpl.
                     rewrite map_app. now apply NoDup_snoc.
              ** rewrite (SetParent_null_geometry X w p t st Hp Ht Hroot Hg)
                   in Hstep. discriminate.
        -- rewrite (SetParent_no_tree X w p st Hp Ht) in Hstep.
           now inversion Hstep; subst.
    + destruct (SetBounds_untouched h b st) as [l Hl]. rewrite Hl in Hstep.
      now inversion Hstep; subst.
    + destruct (OSCaptureMulti fuel X wnd mode rects st) as [[] s | e s | |]
        eqn:Hcall; inversion Hstep; subst; clear Hstep.
      * assert (Hu : registry_untouched st st')
          by (eapply Capture_untouched; left; exact Hcall).
        destruct Hu as [-> _]. exact Hnd.
      * assert (Hu : registry_untouched st st')
          by (eapply Capture_untouched; right; exists e; exact Hcall).
        destruct Hu as [-> _]. exact Hnd.
  - inversion Hstep; subst.
    destruct (WindowThread_step_fields ev st) as [-> _]. exact Hnd.
Qed.

Lemma replay_windows (evs : list event) :
  forall st st',
    replay evs st = Some st' ->
    embeds_fresh evs st = true ->
    NoDup (map window (trackedWindows st)) ->
    NoDup (map window (trackedWindows st')).
Proof.
  induction evs as [| e evs IH]; intros st st' H Hfresh Hnd; simpl in H.
  - now inversion H; subst.
  - destruct (step e st) as [st1 |] eqn:Hstep; [| discriminate].
    simpl in Hfresh. rewrite Hstep in Hfresh.
    apply andb_true_iff in Hfresh as [Hhere Hrest].
    eapply IH; [exact H | exact Hrest |].
    eapply step_windows; [exact Hstep | | exact Hnd].
    simpl. rewrite Hstep. now rewrite Hhere.
Qed.

(** ** The registry over every run *)

(** C1, as the code has it.  After every sequence of calls and thread steps
    from the start of the process, the frames of the registry are pairwise
    distinct; its windows are pairwise distinct when every embed request of
    the sequence named a window that had no entry at that time. *)
Theorem registry_frames_distinct_windows_distinct_if_embedded_once
    (base : xid) (evs : list event) (st : conn) :
  replay evs (initial base) = Some st ->
  NoDup (map frame (trackedWindows st))
  /\ (embeds_fresh evs (initial base) = true ->
      NoDup (map window (trackedWindows st))).
Proof.
  intros Hrun. split.
  - destruct (replay_invs evs _ _ Hrun (initial_invs base)) as [_ [Hnd _]].
    exact Hnd.
  - intros Hfresh. eapply replay_windows; [exact Hrun | exact Hfresh |].
    simpl. constructor.
Qed.

Lemma registry_frames_distinct_windows_distinct_if_embedded_once_witness :
  trackedWindows churn_state
  = [mkTrackedWindow 20 1002; mkTrackedWindow 50 1003]
  /\ NoDup (map frame (trackedWindows churn_state))
  /\ NoDup (map window (trackedWindows churn_state)).
Proof.
  destruct (registry_frames_distinct_windows_distinct_if_embedded_once
              1000 churn_run churn_state eq_refl) as [Hframes Hwindows].
  split; [reflexivity |].
  split; [exact Hframes | apply Hwindows; reflexivity].
Defined.

(** Embedding window 50 twice leaves two entries for it. *)
Lemma registry_same_window_twice :
  ~ (forall (base : xid) (evs : list event) (st : conn),
       replay evs (initial base) = Some st ->
       NoDup (map window (trackedWindows st))
       /\ NoDup (map frame (trackedWindows st))).
Proof.
  intros Hall.
  destruct (replay [Invoke (CallSetParent sample_server 50 22);
                    Invoke (CallSetParent sample_server 50 22)] (initial 1000))
    as [st |] eqn:Hrun; [| vm_compute in Hrun; discriminate].
  destruct (Hall _ _ _ Hrun) as [Hwindows _].
  vm_compute in Hrun. inversion Hrun; subst; clear Hrun.
  simpl in Hwindows. inversion Hwindows as [| ? ? Hnotin _]; subst.
  apply Hnotin. now left.
Qed.

(** ** Un-embedding the last entry *)

(** C3.  From a state the process can reach, with [w] in frame [f] the only
    entry: when [SetParent(w, 0)] returns, it has, after reparenting [w] to
    the root, cleared the run flag, destroyed [f], flushed, joined the
    thread and cleared the registry, in this order and nothing else; the
    registry is empty, the thread object holds no thread, and
    [windowThreadExists] is false, which [WindowThread] stores last.  The
    call returns as soon as [xcb_wait_for_event] has one more value for the
    thread, and it neither throws nor crashes. *)
Theorem unembed_last_entry_stops_and_joins_thread
    (X : xserver) (w f : xid) (st : conn) :
  reachable st ->
  trackedWindows st = [mkTrackedWindow w f] ->
  (forall st',
     OSSetWindowParent X w 0 st = Returned tt st' ->
     trace st' = trace st ++
       [ReparentWindow w (rootWindow X) 0 0; StoreShouldRun false;
        DestroyWindow f; Flush; JoinThread; ClearRegistry]
     /\ trackedWindows st' = []
     /\ windowThread st' = NotJoinable
     /\ windowThreadExists st' = false
     /\ windowThreadShouldRun st' = false)
  /\ (wait_for_event X <> [] ->
      exists st', OSSetWindowParent X w 0 st = Returned tt st')
  /\ (forall e st', OSSetWindowParent X w 0 st <> Threw e st')
  /\ (forall why, OSSetWindowParent X w 0 st <> Crashed why).
Proof.
  intros Hreach Hreg.
  destruct (reachable_invs st Hreach) as [Hinv _].
  assert (Hf : GetFrame (trackedWindows st) w = Some f).
  { rewrite Hreg. simpl. now rewrite Z.eqb_refl. }
  assert (Hlen : List.length (trackedWindows st) = 1%nat)
    by now rewrite Hreg.
  assert (Hj : windowThread st <> NotJoinable).
  { apply Hinv. rewrite Hreg. discriminate. }
  rewrite (SetParent_unembed_last X w f st Hf Hlen).
  set (st1 := mkConn (trackedWindows st) (windowThread st)
                (windowThreadExists st) false (next_xid st)
                (trace st ++ [ReparentWindow w (rootWindow X) 0 0;
                              StoreShouldRun false; DestroyWindow f; Flush;
                              JoinThread])).
  assert (Hinv1 : thread_inv st1) by (destruct Hinv; split; auto).
  assert (Hout :
    match windowThread st with
    | NotJoinable => Threw system_error st1
    | _ =>
        match WindowThread_run (wait_for_event X) st1 with
        | Some st2 =>
            Returned tt
              (mkConn [] NotJoinable (windowThreadExists st2)
                      (windowThreadShouldRun st2) (next_xid st2)
                      (trace st2 ++ [ClearRegistry]))
        | None => Blocked
        end
    end
    = match WindowThread_run (wait_for_event X) st1 with
      | Some st2 =>
          Returned tt
            (mkConn [] NotJoinable (windowThreadExists st2)
                    (windowThreadShouldRun st2) (next_xid st2)
                    (trace st2 ++ [ClearRegistry]))
      | None => Blocked
      end).
  { destruct (windowThread st); [congruence | | |]; reflexivity. }
  rewrite Hout; clear Hout.
  destruct (WindowThread_run (wait_for_event X) st1) as [st2 |] eqn:Hrun.
  - destruct (WindowThread_run_fields _ _ _ Hrun) as (_ & _ & Htr & Hsr).
    destruct (WindowThread_run_ends _ _ _ Hinv1 Hj Hrun) as [_ Hex].
    split; [| split; [| split]].
    + intros st' H. inversion H; subst; clear H. simpl.
      rewrite Htr, Hex, Hsr. unfold st1; simpl.
      rewrite <- app_assoc. now repeat split.
    + intros _. eexists; reflexivity.
    + discriminate.
    + discriminate.
  - split; [| split; [| split]]; try discriminate.
    intros Hev.
    destruct (WindowThread_run_returns (wait_for_event X) st1 eq_refl Hev)
      as [st2 Hrun2].
    congruence.
Qed.

Lemma unembed_last_entry_stops_and_joins_thread_witness :
  exists st',
    OSSetWindowParent sample_server 50 0 sample_state = Returned tt st'
    /\ trace st' = trace sample_state ++
         [ReparentWindow 50 1 0 0; StoreShouldRun false;
          DestroyWindow 1000; Flush; JoinThread; ClearRegistry]
    /\ trackedWindows st' = []
    /\ windowThread st' = NotJoinable
    /\ windowThreadExists st' = false
    /\ windowThreadShouldRun st' = false.
Proof.
  assert (Hreach : reachable sample_state).
  { exists 1000, sample_run. reflexivity. }
  destruct (unembed_last_entry_stops_and_joins_thread
              sample_server 50 1000 sample_state Hreach eq_refl)
    as (Hpost & Hreturns & _).
  destruct (Hreturns ltac:(discriminate)) as [st' Hst'].
  exists st'. split; [exact Hst' | now apply Hpost].
Defined.

(** After the last entry was un-embedded the thread object holds no thread
    and [windowThreadExists] is false, so the next embed starts a thread
    again. *)
Lemma embed_after_join_starts_thread (X : xserver) (w p : xid)
    (t : tree_reply) (g : geometry_reply) (st : conn) :
  p <> 0 ->
  query_tree X p = Some t ->
  t_parent t <> t_root t ->
  get_geometry X w = Some g ->
  windowThread st = NotJoinable ->
  windowThreadExists st = false ->
  exists st',
    OSSetWindowParent X w p st = Returned tt st'
    /\ windowThread st' = AtLoopHead (next_xid st + 1)
    /\ windowThreadExists st' = true
    /\ windowThreadShouldRun st' = true.
Proof.
  intros Hp Ht Hroot Hg Hthr Hex.
  pose proof (SetParent_embeds X w p t g st Hp Ht Hroot Hg) as H.
  simpl in H. rewrite Hex, Hthr in H. destruct H as [tr H].
  eexists. split; [exact H |]. now repeat split.
Qed.

(** ** Window discovery *)

Example discovery_keeps_deepest :
  OSGetRsHandles sample_tree = inr [18].
Proof. vm_compute. reflexivity. Qed.

Example discovery_shallow :
  OSGetRsHandles shallow_tree = inr [11].
Proof. vm_compute. reflexivity. Qed.

Example discovery_ties_accumulate :
  OSGetRsHandles tied_tree = inr [12; 14].
Proof. vm_compute. reflexivity. Qed.

(** *** The class name the two comparisons see *)

Lemma byte_eqb_refl (b : byte) : Byte.eqb b b = true.
Proof. now apply byte_dec_lb. Qed.

Lemma byte_eqb_sym (a b : byte) : Byte.eqb a b = Byte.eqb b a.
Proof.
  destruct (Byte.eqb a b) eqn:Hab.
  - apply byte_dec_bl in Hab. subst. symmetry. apply byte_eqb_refl.
  - destruct (Byte.eqb b a) eqn:Hba; [| reflexivity].
    apply byte_dec_bl in Hba. subst. now rewrite byte_eqb_refl in Hab.
Qed.

Lemma skipn_class_name (v r z : list byte) :
  after_nul v = Some r ->
  skipn (S (strlen (v ++ z))) (v ++ z) = r ++ z.
Proof.
  revert r. induction v as [| b v IH]; intros r H; simpl in H.
  - discriminate.
  - cbn [app strlen]. destruct (Byte.eqb b x00).
    + inversion H; subst. reflexivity.
    + cbn [skipn]. now apply IH.
Qed.

Lemma skipn_no_class_name (v z : list byte) :
  after_nul v = None ->
  skipn (S (strlen (v ++ x00 :: z))) (v ++ x00 :: z) = z.
Proof.
  induction v as [| b v IH]; intros H; simpl in H.
  - reflexivity.
  - cbn [app strlen]. destruct (Byte.eqb b x00); [discriminate |].
    cbn [skipn]. now apply IH.
Qed.

(** On an array that ends in a NUL, [strcmp] against a literal without NUL
    decides whether the string at the start of the array is the literal. *)
Lemma strcmp_equal_spec (lit : list byte) :
  forallb (fun c => negb (Byte.eqb c x00)) lit = true ->
  forall (r : list byte) (k : nat),
  exists b,
    strcmp_equal (r ++ repeat x00 (S k)) lit = Some b
    /\ (b = true <-> until_nul r = lit).
Proof.
  induction lit as [| c lit IH]; intros Hlit r k.
  - destruct r as [| b r]; simpl.
    + exists true. now split.
    + exists (Byte.eqb b x00). split; [reflexivity |].
      destruct (Byte.eqb b x00); split; congruence.
  - simpl in Hlit. apply andb_true_iff in Hlit as [Hc Hlit].
    apply negb_true_iff in Hc.
    destruct r as [| b r]; simpl.
    + rewrite byte_eqb_sym, Hc. exists false. split; [reflexivity |].
      split; congruence.
    + destruct (Byte.eqb b c) eqn:Hbc.
      * apply byte_dec_bl in Hbc. subst b. rewrite Hc.
        destruct (IH Hlit r k) as (b & Hb & Hiff). exists b.
        split; [exact Hb |]. rewrite Hiff. split; congruence.
      * exists false. split; [reflexivity |].
        split; [congruence |]. intros H.
        destruct (Byte.eqb b x00); [discriminate |].
        inversion H; subst. now rewrite byte_eqb_refl in Hbc.
Qed.

Lemma literals_without_nul :
  forallb (fun c => negb (Byte.eqb c x00)) RuneScape = true
  /\ forallb (fun c => negb (Byte.eqb c x00)) steam_app_1343400 = true.
Proof. split; reflexivity. Qed.

Lemma read_whole_buffer (value : list byte) :
  read_whole value = true ->
  exists k,
    (List.length value + S k = 4096)%nat
    /\ buffer_of value = value ++ repeat x00 (S k).
Proof.
  unfold read_whole, buffer_of, long_length. intros H.
  apply andb_true_iff in H as [_ H]. apply Z.ltb_lt in H.
  exists (4095 - List.length value)%nat. split; [lia |].
  f_equal. f_equal. lia.
Qed.

(** The comparisons read past the buffer exactly for a value of 4095 bytes
    without a NUL; otherwise they succeed exactly when the class name of the
    value is one of the two names. *)
Lemma classname_matches_spec (value : list byte) :
  read_whole value = true ->
  (classname_matches value = None
   <-> after_nul value = None /\ List.length value = 4095%nat)
  /\ (classname_matches value = Some true
      <-> class_name value = Some RuneScape
          \/ class_name value = Some steam_app_1343400).
Proof.
  intros Hread. destruct (read_whole_buffer value Hread) as (k & Hk & Hbuf).
  destruct literals_without_nul as [HR HS].
  unfold classname_matches, class_name. rewrite Hbuf.
  destruct (after_nul value) as [r |] eqn:Hafter.
  - rewrite (skipn_class_name value r _ Hafter).
    destruct (strcmp_equal_spec RuneScape HR r k) as (b1 & -> & H1).
    destruct (strcmp_equal_spec steam_app_1343400 HS r k) as (b2 & H2' & H2).
    simpl option_map. split.
    + split; [| intros [? _]; discriminate].
      destruct b1; [discriminate |]. rewrite H2'. discriminate.
    + destruct b1.
      * split; [intros _; left; f_equal; now apply H1 | reflexivity].
      * rewrite H2'. split.
        -- intros H. inversion H; subst. right. f_equal. now apply H2.
        -- intros [H | H]; inversion H as [Heq].
           ++ apply H1 in Heq. discriminate.
           ++ apply H2 in Heq. now subst.
  - simpl repeat. rewrite (skipn_no_class_name value _ Hafter).
    simpl option_map. destruct k as [| k].
    + simpl. split.
      * split; [intros _; split; [reflexivity | lia] | reflexivity].
      * split; [discriminate | intros [H | H]; discriminate].
    + simpl. split.
      * split; [discriminate | intros [_ H]; lia].
      * split; [discriminate | intros [H | H]; discriminate].
Qed.

(** *** The walk *)

(** Induction over a window tree: a property that holds of a window when it
    holds of all its children holds of every window. *)
Lemma wnode_induction (P : wnode -> Prop) :
  (forall id prop, P (WNode id prop None)) ->
  (forall id prop cs, Forall P cs -> P (WNode id prop (Some cs))) ->
  forall n, P n.
Proof.
  intros Hleaf Hnode.
  exact (fix IH (n : wnode) : P n :=
           match n with
           | WNode id prop None => Hleaf id prop
           | WNode id prop (Some cs) =>
               Hnode id prop cs
                 ((fix all (l : list wnode) : Forall P l :=
                     match l with
                     | [] => Forall_nil P
                     | c :: l' => Forall_cons c (IH c) (all l')
                     end) cs)
           end).
Qed.

Lemma GetRsHandlesRecursively_children (id : xid) (prop : option (list byte))
    (cs : list wnode) (st : found) (depth : nat) :
  GetRsHandlesRecursively (WNode id prop (Some cs)) st depth
  = GetRsHandles_children cs st depth.
Proof.
  simpl. revert st. induction cs as [| c cs IH]; intros st.
  - reflexivity.
  - simpl. destruct (check_child c depth st) as [| st1]; [reflexivity |].
    destruct (GetRsHandlesRecursively c st1 (S depth)) as [| st2];
      [reflexivity |].
    apply IH.
Qed.

Lemma check_child_absorbs (c : wnode) (depth : nat) (st : found) :
  overruns c = false ->
  check_child c depth st = inr (absorb st (depth, c)).
Proof.
  unfold check_child, absorb, overruns, is_match, read_whole; simpl.
  destruct c as [id [value |] tree]; simpl; [| reflexivity].
  destruct ((Z.of_nat (List.length value) >? 0)
            && (Z.of_nat (List.length value) <? long_length));
    simpl; [| reflexivity].
  destruct (classname_matches value) as [[|] |]; simpl;
    [reflexivity | reflexivity | discriminate].
Qed.

(** Without a read past the buffer, the walk below a window folds [absorb]
    over its descendants, in order. *)
Lemma GetRsHandlesRecursively_folds :
  forall (n : wnode) (st : found) (depth : nat),
    forallb (fun m => negb (overruns (snd m))) (descendants n depth) = true ->
    GetRsHandlesRecursively n st depth
    = inr (fold_left absorb (descendants n depth) st).
Proof.
  induction n as [id prop | id prop cs IH] using wnode_induction;
    intros st depth Hsafe.
  - reflexivity.
  - rewrite GetRsHandlesRecursively_children.
    cbn [descendants] in *. revert st Hsafe.
    induction IH as [| c cs Hc _ IHcs]; intros st Hsafe.
    + reflexivity.
    + cbn [flat_map GetRsHandles_children] in *.
      rewrite forallb_app in Hsafe. apply andb_true_iff in Hsafe as [Hhere Hrest].
      cbn [forallb snd] in Hhere.
      apply andb_true_iff in Hhere as [Hover Hbelow].
      apply negb_true_iff in Hover.
      rewrite (check_child_absorbs c depth st Hover).
      rewrite (Hc _ _ Hbelow).
      rewrite (IHcs _ Hrest).
      rewrite fold_left_app. reflexivity.
Qed.

(** *** The deepest matches *)

Lemma max_depth_app (ms : list (nat * wnode)) (m : nat * wnode) :
  max_depth (ms ++ [m]) = Nat.max (max_depth ms) (fst m).
Proof.
  unfold max_depth. induction ms as [| a ms IH]; simpl.
  - lia.
  - rewrite IH. lia.
Qed.

Lemma max_depth_bounds (ms : list (nat * wnode)) (m : nat * wnode) :
  In m ms -> (fst m <= max_depth ms)%nat.
Proof.
  unfold max_depth. induction ms as [| a ms IH]; simpl; intros H; [tauto |].
  destruct H as [-> | H]; [lia |]. apply IH in H. lia.
Qed.

Lemma none_deeper (ms : list (nat * wnode)) (d : nat) :
  (max_depth ms < d)%nat ->
  filter (fun m => (fst m =? d)%nat) ms = [].
Proof.
  intros Hlt. induction ms as [| a ms IH]; [reflexivity |].
  simpl. assert (Ha : (fst a <= max_depth (a :: ms))%nat)
    by (apply max_depth_bounds; now left).
  assert (Hms : (max_depth ms <= max_depth (a :: ms))%nat)
    by (unfold max_depth; simpl; lia).
  destruct (Nat.eqb_spec (fst a) d); [lia |]. apply IH. lia.
Qed.

Lemma take_deepest_deepest (ms : list (nat * wnode)) (d : nat) (n : wnode) :
  take_deepest (node_id n) d (deepest ms) = deepest (ms ++ [(d, n)]).
Proof.
  unfold take_deepest, deepest. rewrite max_depth_app. cbn [fst].
  rewrite filter_app, map_app. cbn [filter fst].
  destruct (Nat.ltb_spec (max_depth ms) d) as [Hlt | Hge].
  - replace (Nat.max (max_depth ms) d) with d by lia.
    rewrite (none_deeper ms d Hlt), Nat.eqb_refl. reflexivity.
  - replace (Nat.max (max_depth ms) d) with (max_depth ms) by lia.
    destruct (Nat.eqb_spec d (max_depth ms)); simpl;
      [reflexivity | now rewrite app_nil_r].
Qed.

Lemma absorb_deepest (seen rest : list (nat * wnode)) :
  fold_left absorb rest (deepest (filter (fun m => is_match (snd m)) seen))
  = deepest (filter (fun m => is_match (snd m)) (seen ++ rest)).
Proof.
  revert seen. induction rest as [| m rest IH]; intros seen.
  - now rewrite app_nil_r.
  - cbn [fold_left].
    replace (seen ++ m :: rest) with ((seen ++ [m]) ++ rest)
      by now rewrite <- app_assoc.
    rewrite <- IH. f_equal.
    unfold absorb. rewrite filter_app. cbn [filter].
    destruct (is_match (snd m)).
    + destruct m as [d n]. apply take_deepest_deepest.
    + now rewrite app_nil_r.
Qed.

(** Window discovery on a tree in which no comparison reads past the
    buffer: every descendant of the root is visited and the result is, in
    the order of the walk, the handles of the matching descendants that lie
    at the greatest depth of any match. *)
Lemma OSGetRsHandles_deepest_matches (root : wnode) :
  forallb (fun m => negb (overruns (snd m))) (descendants root O) = true ->
  OSGetRsHandles root = inr (fst (deepest (matches root))).
Proof.
  intros Hsafe. unfold OSGetRsHandles.
  rewrite (GetRsHandlesRecursively_folds root _ _ Hsafe).
  change ([], O) with (deepest (filter (fun m => is_match (snd m)) [])).
  rewrite absorb_deepest. simpl app. unfold matches.
  destruct (deepest _). reflexivity.
Qed.

(** A match was read whole: its value is shorter than the read cap. *)
Lemma is_match_below_cap (id : xid) (value : list byte)
    (tree : option (list wnode)) :
  Z.of_nat (List.length value) >= long_length ->
  is_match (WNode id (Some value) tree) = false.
Proof.
  intros H. unfold is_match, read_whole.
  assert (Hc : (Z.of_nat (List.length value) <? long_length) = false)
    by (apply Z.ltb_ge; lia).
  now rewrite Hc, andb_false_r.
Qed.

(** A match has one of the two class names, and a node whose value was read
    whole and has such a class name is a match. *)
Lemma is_match_class_name (id : xid) (value : list byte)
    (tree : option (list wnode)) :
  is_match (WNode id (Some value) tree) = true
  <-> read_whole value = true
      /\ (class_name value = Some RuneScape
          \/ class_name value = Some steam_app_1343400).
Proof.
  unfold is_match. split.
  - intros H. apply andb_true_iff in H as [Hread H]. split; [exact Hread |].
    apply (classname_matches_spec value Hread).
    destruct (classname_matches value) as [[|] |]; congruence.
  - intros [Hread H]. rewrite Hread.
    apply (classname_matches_spec value Hread) in H. now rewrite H.
Qed.

(** C5.  A window whose WM_CLASS value is 4095 bytes without a NUL passes
    the length test; [strlen(buffer)] is 4095 and the class name is compared
    at [buffer + 4096], past the end of the 4096-byte array. *)
Theorem discovery_reads_past_buffer :
  read_whole unterminated_value = true
  /\ strlen (buffer_of unterminated_value) = 4095%nat
  /\ List.length (buffer_of unterminated_value) = 4096%nat
  /\ classname_matches unterminated_value = None
  /\ OSGetRsHandles overrun_tree = inl OutOfBoundsRead.
Proof. vm_compute. repeat split; reflexivity. Qed.

(** * Further properties *)

(** ** Bounds and client bounds *)

Lemma int16_range (z : Z) : in_int16 (int16 z).
Proof.
  unfold in_int16, int16.
  pose proof (Z.mod_pos_bound (z + 32768) 65536 ltac:(lia)). lia.
Qed.

Lemma GetBounds_outcome (X : xserver) (h : xid) (st : conn) :
  GetBounds X h st
  = match query_tree X h with
    | None => Returned JSRectangle_zero (appended st [QueryTree h])
    | Some t =>
        match get_geometry X (t_parent t) with
        | None =>
            Returned JSRectangle_zero
              (appended st [QueryTree h; GetGeometry (t_parent t)])
        | Some g =>
            Returned (mkRect (g_x g) (g_y g) (g_width g) (g_height g))
              (appended st [QueryTree h; GetGeometry (t_parent t)])
        end
    end.
Proof.
  unfold GetBounds, xcb_query_tree, xcb_get_geometry. run.
  destruct (query_tree X h) as [t |]; [| reflexivity]. run.
  destruct (get_geometry X (t_parent t)); reflexivity.
Qed.

(** X1.  For a handle whose own geometry query succeeds: when its tree
    query fails, [GetBounds] gives the zeroed bounds while [GetClientBounds]
    still gives the handle's own geometry; when its parent is the root,
    [GetBounds] gives the geometry of the root window while
    [GetClientBounds] gives the handle's own geometry. *)
Theorem GetBounds_and_GetClientBounds_of_toplevel
    (X : xserver) (h : xid) (r : geometry_reply) (st : conn) :
  get_geometry X h = Some r ->
  let own := mkRect (g_x r) (g_y r) (g_width r) (g_height r) in
  (query_tree X h = None ->
   returns (GetBounds X h st) JSRectangle_zero
   /\ forall fuel, returns (GetClientBounds (S fuel) X h st) own)
  /\
  (forall (t : tree_reply) (rr : geometry_reply),
     query_tree X h = Some t ->
     t_parent t = g_root r ->
     get_geometry X (g_root r) = Some rr ->
     returns (GetBounds X h st)
       (mkRect (g_x rr) (g_y rr) (g_width rr) (g_height rr))
     /\ forall fuel, returns (GetClientBounds (S fuel) X h st) own).
Proof.
  intros Hg own. split.
  - intros Ht. split.
    + rewrite GetBounds_outcome, Ht. eexists; reflexivity.
    + intros fuel. unfold GetClientBounds, xcb_get_geometry. run.
      rewrite Hg. unfold bind. simpl.
      unfold xcb_query_tree. run. rewrite Ht. eexists; reflexivity.
  - intros t rr Ht Hroot Hrr. split.
    + rewrite GetBounds_outcome, Ht, Hroot, Hrr. eexists; reflexivity.
    + intros fuel. unfold GetClientBounds, xcb_get_geometry. run.
      rewrite Hg. unfold bind. simpl.
      unfold xcb_query_tree. run. rewrite Ht, Hroot, Z.eqb_refl.
      eexists; reflexivity.
Qed.

Lemma GetBounds_and_GetClientBounds_of_toplevel_witness :
  (returns (GetBounds desk_server 40 (initial 1000)) JSRectangle_zero
   /\ returns (GetClientBounds 1 desk_server 40 (initial 1000))
        (mkRect 9 9 10 10))
  /\ (returns (GetBounds desk_server 20 (initial 1000))
        (mkRect 0 0 1920 1080)
      /\ returns (GetClientBounds 1 desk_server 20 (initial 1000))
           (mkRect 100 200 640 480)).
Proof.
  split.
  - destruct (GetBounds_and_GetClientBounds_of_toplevel desk_server 40
                (mkGeometry 1 9 9 10 10) (initial 1000) eq_refl)
      as [Hfails _].
    destruct (Hfails eq_refl) as [Hb Hc]. split; [exact Hb | apply Hc].
  - destruct (GetBounds_and_GetClientBounds_of_toplevel desk_server 20
                (mkGeometry 1 100 200 640 480) (initial 1000) eq_refl)
      as [_ Htop].
    destruct (Htop (mkTree 1 1 [21]) (mkGeometry 1 0 0 1920 1080)
                eq_refl eq_refl eq_refl) as [Hb Hc].
    split; [exact Hb | apply Hc].
Defined.

(** X2.  For a handle inside a top-level window (the parent's parent is the
    root), the position [GetClientBounds] gives is the position [GetBounds]
    gives plus the handle's own offset, in 16-bit arithmetic; the size of
    the first is the handle's, the size of the second the parent's. *)
Theorem client_position_is_bounds_plus_own_offset
    (X : xserver) (h : xid) (r rp : geometry_reply) (t t2 : tree_reply)
    (fuel : nat) (st : conn) :
  get_geometry X h = Some r ->
  in_int16 (g_x r) -> in_int16 (g_y r) ->
  query_tree X h = Some t ->
  t_parent t <> g_root r ->
  get_geometry X (t_parent t) = Some rp ->
  query_tree X (t_parent t) = Some t2 ->
  t_parent t2 = g_root rp ->
  exists b c,
    returns (GetBounds X h st) b
    /\ returns (GetClientBounds (S (S fuel)) X h st) c
    /\ x c = int16 (x b + g_x r) /\ y c = int16 (y b + g_y r)
    /\ width b = g_width rp /\ height b = g_height rp
    /\ width c = g_width r /\ height c = g_height r.
Proof.
  intros Hg Hx Hy Ht Hroot Hgp Ht2 Hroot2.
  exists (mkRect (g_x rp) (g_y rp) (g_width rp) (g_height rp)).
  exists (mkRect (int16 (g_x r + g_x rp)) (int16 (g_y r + g_y rp))
                 (g_width r) (g_height r)).
  repeat split; simpl; try (f_equal; lia).
  - rewrite GetBounds_outcome, Ht, Hgp. eexists; reflexivity.
  - apply Z.eqb_neq in Hroot.
    unfold GetClientBounds, xcb_get_geometry. run. rewrite Hg.
    unfold bind. simpl. unfold xcb_query_tree, xcb_get_geometry. run.
    rewrite Ht, Hroot. run. rewrite Hgp. run.
    rewrite Ht2, Hroot2, Z.eqb_refl. eexists; reflexivity.
Qed.

Lemma client_position_is_bounds_plus_own_offset_witness :
  exists b c,
    returns (GetBounds desk_server 21 (initial 1000)) b
    /\ returns (GetClientBounds 2 desk_server 21 (initial 1000)) c
    /\ x c = int16 (x b + 5) /\ y c = int16 (y b + 7)
    /\ width b = 640 /\ height b = 480
    /\ width c = 300 /\ height c = 400.
Proof.
  apply (client_position_is_bounds_plus_own_offset desk_server 21
           (mkGeometry 1 5 7 300 400) (mkGeometry 1 100 200 640 480)
           (mkTree 1 20 []) (mkTree 1 1 [21]) 0 (initial 1000));
    try reflexivity; try (unfold in_int16; simpl; lia).
Defined.

Lemma GetClientBounds_loop_in_int16 (fuel : nat) (X : xserver) :
  forall (w : xid) (r : geometry_reply) (ax ay : Z) (st st' : conn) (p : Z * Z),
    in_int16 ax -> in_int16 ay ->
    GetClientBounds_loop fuel X w r ax ay st = Returned p st' ->
    in_int16 (fst p) /\ in_int16 (snd p).
Proof.
  induction fuel as [| fuel IH]; intros w r ax ay st st' p Hx Hy H;
    simpl in H.
  - discriminate.
  - unfold xcb_query_tree, xcb_get_geometry in H. revert H. run.
    destruct (query_tree X w) as [t |].
    + destruct (t_parent t =? g_root r).
      * intros H; inversion H; subst. now split.
      * run. destruct (get_geometry X (t_parent t)) as [r' |].
        -- intros H. eapply IH; [| | exact H]; apply int16_range.
        -- intros H; inversion H; subst. now split.
    + intros H; inversion H; subst. now split.
Qed.

(** X3.  Whatever the window tree, the position [GetClientBounds] returns
    lies in the signed 16-bit range as soon as the handle's own reply does;
    and the call only issues queries: the registry, the thread, its flags
    and the id allocator are as before. *)
Theorem GetClientBounds_position_in_int16
    (fuel : nat) (X : xserver) (h : xid) (st st' : conn) (b : JSRectangle) :
  GetClientBounds fuel X h st = Returned b st' ->
  (forall r, get_geometry X h = Some r -> in_int16 (g_x r) /\ in_int16 (g_y r)) ->
  in_int16 (x b) /\ in_int16 (y b)
  /\ registry_untouched st st' /\ next_xid st' = next_xid st
  /\ exists l, trace st' = trace st ++ l /\ forallb is_query l = true.
Proof.
  intros H Hown.
  assert (Hpos : in_int16 (x b) /\ in_int16 (y b)).
  { revert H. unfold GetClientBounds, xcb_get_geometry. run.
    destruct (get_geometry X h) as [r |] eqn:Hg.
    - destruct (Hown r eq_refl) as [Hx Hy]. unfold bind.
      destruct (GetClientBounds_loop fuel X h r (g_x r) (g_y r)
                  (appended st [GetGeometry h])) as [p st1 | | |] eqn:Hloop;
        try discriminate.
      intros H; inversion H; subst; simpl.
      exact (GetClientBounds_loop_in_int16 _ _ _ _ _ _ _ _ _ Hx Hy Hloop).
    - intros H; inversion H; subst; simpl. unfold in_int16. lia. }
  destruct Hpos as [Hx Hy].
  destruct (GetClientBounds_queries _ _ _ _ _ _ H) as (l & Hl & Hall).
  rewrite Hall in H. inversion H; subst.
  split; [exact Hx |]. split; [exact Hy |].
  split; [apply registry_untouched_appended |].
  split; [reflexivity |]. exists l. now split.
Qed.

Lemma GetClientBounds_position_in_int16_witness :
  in_int16 (-25536) /\ in_int16 (-25536)
  /\ registry_untouched (initial 1000)
       (appended (initial 1000)
          [GetGeometry 31; QueryTree 31; GetGeometry 30; QueryTree 30])
  /\ next_xid (appended (initial 1000)
          [GetGeometry 31; QueryTree 31; GetGeometry 30; QueryTree 30]) = 1000
  /\ exists l,
       trace (appended (initial 1000)
          [GetGeometry 31; QueryTree 31; GetGeometry 30; QueryTree 30])
       = [] ++ l /\ forallb is_query l = true.
Proof.
  apply (GetClientBounds_position_in_int16 3 far_server 31 (initial 1000) _
           (mkRect (-25536) (-25536) 10 10)).
  - reflexivity.
  - intros r Hr. vm_compute in Hr. inversion Hr; subst.
    unfold in_int16; simpl; lia.
Defined.

(** ** IsValid *)

(** X4.  [IsValid] answers false for the zero handle without a request.  For
    a non-zero handle it issues the geometry query and nothing else; when it
    answers false, [GetClientBounds] on the handle gives the zeroed bounds,
    and embedding the handle under a parent that is not top-level
    dereferences the NULL geometry reply. *)
Theorem IsValid_false_means_no_geometry
    (X : xserver) (h : xid) (st : conn) :
  IsValid X 0 st = Returned false st
  /\ (h <> 0 ->
      exists valid,
        IsValid X h st = Returned valid (appended st [GetGeometry h])
        /\ (valid = false ->
            (forall fuel st2,
               returns (GetClientBounds fuel X h st2) JSRectangle_zero)
            /\ (forall p t st2,
                  p <> 0 ->
                  query_tree X p = Some t ->
                  t_parent t <> t_root t ->
                  OSSetWindowParent X h p st2 = Crashed NullDereference))).
Proof.
  split; [reflexivity |].
  intros Hh. apply Z.eqb_neq in Hh. unfold IsValid. rewrite Hh.
  unfold xcb_get_geometry. run.
  destruct (get_geometry X h) as [g |] eqn:Hg.
  - exists true. split; [reflexivity | discriminate].
  - exists false. split; [reflexivity |]. intros _. split.
    + intros fuel st2. unfold GetClientBounds, xcb_get_geometry. run.
      rewrite Hg. eexists; reflexivity.
    + intros p t st2 Hp Ht Hroot.
      now apply (SetParent_null_geometry X h p t).
Qed.

Lemma IsValid_false_means_no_geometry_witness :
  exists valid,
    IsValid sample_server 77 (initial 1000)
    = Returned valid (appended (initial 1000) [GetGeometry 77])
    /\ returns (GetClientBounds 3 sample_server 77 (initial 1000))
         JSRectangle_zero
    /\ OSSetWindowParent sample_server 77 22 (initial 1000)
       = Crashed NullDereference.
Proof.
  destruct (IsValid_false_means_no_geometry sample_server 77 (initial 1000))
    as [_ Hnonzero].
  destruct (Hnonzero ltac:(lia)) as (valid & Hcall & Hfalse).
  exists valid. split; [exact Hcall |].
  assert (Hv : valid = false).
  { vm_compute in Hcall. now inversion Hcall. }
  destruct (Hfalse Hv) as [Hbounds Hembed]. split.
  - apply Hbounds.
  - apply (Hembed 22 (mkTree 1 21 [])); [lia | reflexivity | simpl; lia].
Defined.

(** ** Handles to and from JavaScript *)

Lemma mod_64_mod_32 (n : Z) : (n mod 2 ^ 64) mod 2 ^ 32 = n mod 2 ^ 32.
Proof.
  apply Z.mod_mod_divide. exists (2 ^ 32). reflexivity.
Qed.

(** X5.  A handle survives [ToJS] followed by [FromJsValue]: the same
    handle comes back and no exception is raised. *)
Theorem FromJsValue_ToJS (h : xid) :
  is_handle h -> FromJsValue (ToJS h) = (h, None).
Proof.
  unfold is_handle, FromJsValue, ToJS. intros Hh.
  rewrite mod_64_mod_32, Z.mod_small by lia.
  assert (H0 : (0 <=? h) = true) by (apply Z.leb_le; lia).
  assert (H1 : (h <? 2 ^ 64) = true) by (apply Z.ltb_lt; lia).
  now rewrite H0, H1.
Qed.

Lemma FromJsValue_ToJS_witness :
  FromJsValue (ToJS 4194311) = (4194311, None).
Proof.
  apply FromJsValue_ToJS. unfold is_handle. lia.
Defined.

(** X6.  [FromJsValue] raises the RangeError exactly for a BigInt below 0 or
    from 2^64 on, and in every case goes on to return a window, whose handle
    is the value modulo 2^32: a BigInt between 2^32 and 2^64 is taken
    without an error, cut to its low 32 bits. *)
Theorem FromJsValue_keeps_low_32_bits (jsval : Z) :
  fst (FromJsValue jsval) = jsval mod 2 ^ 32
  /\ is_handle (fst (FromJsValue jsval))
  /\ (snd (FromJsValue jsval) = None <-> 0 <= jsval < 2 ^ 64)
  /\ (snd (FromJsValue jsval) <> None ->
      snd (FromJsValue jsval) = Some (RangeError "Invalid handle")).
Proof.
  unfold FromJsValue, is_handle; cbn [fst snd].
  rewrite mod_64_mod_32.
  pose proof (Z.mod_pos_bound jsval (2 ^ 32) ltac:(lia)) as Hb.
  split; [reflexivity |]. split; [exact Hb |].
  destruct (Z.leb_spec 0 jsval), (Z.ltb_spec jsval (2 ^ 64)); simpl;
    repeat split; try congruence; try lia; intros; try discriminate; lia.
Qed.

Lemma FromJsValue_keeps_low_32_bits_witness :
  FromJsValue (2 ^ 32 + 5) = (5, None)
  /\ FromJsValue (-1) = (4294967295, Some (RangeError "Invalid handle")).
Proof.
  destruct (FromJsValue_keeps_low_32_bits (2 ^ 32 + 5)) as (Hfst & _ & Hnone & _).
  destruct (FromJsValue_keeps_low_32_bits (-1)) as (Hfst' & _ & _ & Hsome).
  split.
  - apply injective_projections.
    + rewrite Hfst. reflexivity.
    + apply Hnone. lia.
  - apply injective_projections.
    + rewrite Hfst'. reflexivity.
    + apply Hsome. discriminate.
Defined.

(** ** The registry as a lookup table *)

Lemma GetFrame_app (reg : list TrackedWindow) (tw : TrackedWindow) (w : xid) :
  GetFrame (reg ++ [tw]) w
  = match GetFrame reg w with
    | Some f => Some f
    | None => if window tw =? w then Some (frame tw) else None
    end.
Proof.
  induction reg as [| a reg IH]; simpl.
  - reflexivity.
  - destruct (window a =? w); [reflexivity | exact IH].
Qed.

Lemma GetFrame_filter (reg : list TrackedWindow) (w w' : xid) :
  GetFrame (filter (fun tw => negb (window tw =? w)) reg) w'
  = if w' =? w then None else GetFrame reg w'.
Proof.
  induction reg as [| a reg IH]; simpl.
  - now destruct (w' =? w).
  - destruct (Z.eqb_spec (window a) w) as [Haw | Haw]; simpl.
    + rewrite IH. destruct (Z.eqb_spec w' w) as [Hw | Hw]; [reflexivity |].
      destruct (Z.eqb_spec (window a) w'); [congruence | reflexivity].
    + rewrite IH. destruct (Z.eqb_spec w' w) as [Hw | Hw].
      * subst. destruct (Z.eqb_spec (window a) w); [congruence | reflexivity].
      * reflexivity.
Qed.

Lemma filter_keeps_others (reg : list TrackedWindow) (w : xid) :
  GetFrame reg w = None ->
  filter (fun tw => negb (window tw =? w)) reg = reg.
Proof.
  induction reg as [| a reg IH]; simpl; intros H; [reflexivity |].
  destruct (window a =? w); [discriminate |]. simpl. now rewrite IH.
Qed.

Lemma GetFrame_single (reg : list TrackedWindow) (w w' f : xid) :
  List.length reg = 1%nat ->
  GetFrame reg w = Some f ->
  w' <> w ->
  GetFrame reg w' = None.
Proof.
  destruct reg as [| a [| b reg]]; simpl; try discriminate.
  intros _ H Hw. destruct (Z.eqb_spec (window a) w); [| discriminate].
  destruct (Z.eqb_spec (window a) w'); [congruence | reflexivity].
Qed.

(** What a returned un-embed of the only entry leaves.  *)
Lemma unembed_last_returned (X : xserver) (w f : xid) (st st' : conn) :
  thread_inv st ->
  GetFrame (trackedWindows st) w = Some f ->
  List.length (trackedWindows st) = 1%nat ->
  OSSetWindowParent X w 0 st = Returned tt st' ->
  trackedWindows st' = []
  /\ windowThread st' = NotJoinable
  /\ windowThreadExists st' = false
  /\ windowThreadShouldRun st' = false
  /\ next_xid st' = next_xid st.
Proof.
  intros Hinv Hf Hlen H.
  rewrite (SetParent_unembed_last X w f st Hf Hlen) in H.
  assert (Hj : windowThread st <> NotJoinable).
  { apply Hinv. now apply GetFrame_Some_in in Hf. }
  match type of H with
  | context [WindowThread_run ?evs ?s] =>
      destruct (WindowThread_run evs s) as [st2 |] eqn:Hrun;
      [| destruct (windowThread st); [congruence | | |]; discriminate];
      assert (Hinv1 : thread_inv s) by (destruct Hinv; split; auto);
      destruct (WindowThread_run_fields _ _ _ Hrun) as (_ & Hnx & _ & Hsr);
      destruct (WindowThread_run_ends _ _ _ Hinv1 Hj Hrun) as [_ Hex]
  end.
  simpl in Hnx, Hsr.
  destruct (windowThread st); [congruence | | |];
    inversion H; subst; simpl; now repeat split.
Qed.

Lemma embed_registry
    (X : xserver) (w p : xid) (t : tree_reply) (g : geometry_reply)
    (st st' : conn) :
  p <> 0 ->
  query_tree X p = Some t ->
  t_parent t <> t_root t ->
  get_geometry X w = Some g ->
  OSSetWindowParent X w p st = Returned tt st' ->
  trackedWindows st'
  = trackedWindows st ++ [mkTrackedWindow w (next_xid st)].
Proof.
  intros Hp Ht Hroot Hg H.
  pose proof (SetParent_embeds X w p t g st Hp Ht Hroot Hg) as Hem.
  simpl in Hem. destruct (windowThreadExists st).
  - destruct Hem as [tr Hem]. rewrite Hem in H. now inversion H.
  - destruct (windowThread st); try (rewrite Hem in H; discriminate).
    destruct Hem as [tr Hem]. rewrite Hem in H. now inversion H.
Qed.

(** X7.  After an embed that returns, the registry is the old one with the
    entry of the window and the id just allocated at its end.  So a window
    without an entry is then found with the new frame, a window that
    already had an entry is still found with its old frame, and the lookup
    of every other window is as before. *)
Theorem embed_then_lookup
    (X : xserver) (w p : xid) (t : tree_reply) (g : geometry_reply)
    (st st' : conn) :
  p <> 0 ->
  query_tree X p = Some t ->
  t_parent t <> t_root t ->
  get_geometry X w = Some g ->
  OSSetWindowParent X w p st = Returned tt st' ->
  trackedWindows st'
  = trackedWindows st ++ [mkTrackedWindow w (next_xid st)]
  /\ (GetFrame (trackedWindows st) w = None ->
      GetFrame (trackedWindows st') w = Some (next_xid st))
  /\ (forall f, GetFrame (trackedWindows st) w = Some f ->
                GetFrame (trackedWindows st') w = Some f)
  /\ (forall w', w' <> w ->
                 GetFrame (trackedWindows st') w'
                 = GetFrame (trackedWindows st) w').
Proof.
  intros Hp Ht Hroot Hg H.
  rewrite (embed_registry X w p t g st st' Hp Ht Hroot Hg H).
  split; [reflexivity |]. repeat split.
  - intros Hnone. rewrite GetFrame_app, Hnone. simpl. now rewrite Z.eqb_refl.
  - intros f Hf. now rewrite GetFrame_app, Hf.
  - intros w' Hw. rewrite GetFrame_app. simpl.
    destruct (GetFrame (trackedWindows st) w'); [reflexivity |].
    destruct (Z.eqb_spec w w'); [congruence | reflexivity].
Qed.

Lemma embed_then_lookup_witness :
  trackedWindows sample_state = [] ++ [mkTrackedWindow 50 1000]
  /\ GetFrame (trackedWindows sample_state) 50 = Some 1000
  /\ GetFrame (trackedWindows sample_state) 51 = None.
Proof.
  destruct (embed_then_lookup sample_server 50 22 (mkTree 1 21 [])
              (mkGeometry 1 0 0 80 60) (initial 1000)
              (at_thread (AtLoopHead 1001) sample_state))
    as (Hreg & Hnew & _ & Hothers);
    [lia | reflexivity | simpl; lia | reflexivity | reflexivity |].
  split; [exact Hreg |]. split.
  - apply Hnew. reflexivity.
  - apply (Hothers 51). lia.
Defined.

(** ** Embedding *)

(** X8.  An embed under a parent that is not top-level, of a window whose
    geometry is known, issues after its two queries: the change of the
    window's attributes, the creation of the frame in the parent's parent
    (not in the parent), at the origin and with the window's size, the map
    of the frame and the reparenting of the window into it at (0,0).  When
    a thread exists nothing else but the flush follows; when none exists
    and the thread object is free, the graphics context is created on the
    next id, the two flags are set and the thread is started before the
    flush. *)
Theorem embed_requests
    (X : xserver) (w p : xid) (t : tree_reply) (g : geometry_reply)
    (st : conn) :
  p <> 0 ->
  query_tree X p = Some t ->
  t_parent t <> t_root t ->
  get_geometry X w = Some g ->
  let id := next_xid st in
  let reg := trackedWindows st ++ [mkTrackedWindow w id] in
  let common :=
    [QueryTree p; GetGeometry w] ++ frame_requests w id (t_parent t) g in
  (windowThreadExists st = true ->
   OSSetWindowParent X w p st
   = Returned tt
       (mkConn reg (windowThread st) true (windowThreadShouldRun st)
               (id + 1) (trace st ++ common ++ [Flush])))
  /\
  (windowThreadExists st = false ->
   windowThread st = NotJoinable ->
   OSSetWindowParent X w p st
   = Returned tt
       (mkConn reg (AtLoopHead (id + 1)) true true (id + 1 + 1)
               (trace st ++ common ++
                [CreateGC (id + 1) id
                   (Z.lor XCB_GC_BACKGROUND XCB_GC_FOREGROUND)
                   [0x80AAAAAA; 0x80FFFFFF];
                 StoreShouldRun true; StoreExists true;
                 StartThread (id + 1); Flush]))).
Proof.
  intros Hp Ht Hroot Hg id reg common. apply Z.eqb_neq in Hp, Hroot.
  split.
  - intros Hex. unfold OSSetWindowParent. rewrite Hp. run_state.
    rewrite Ht, Hroot. simpl. rewrite Hg. run_state. rewrite Hex. simpl.
    unfold appended; simpl. f_equal. f_equal.
    unfold common, frame_requests, id. rewrite <- !app_assoc. reflexivity.
  - intros Hex Hthr. unfold OSSetWindowParent. rewrite Hp. run_state.
    rewrite Ht, Hroot. simpl. rewrite Hg. run_state. rewrite Hex. simpl.
    rewrite Hthr. unfold appended; simpl. f_equal. f_equal.
    unfold common, frame_requests, id. rewrite <- !app_assoc. reflexivity.
Qed.

Lemma embed_requests_witness :
  OSSetWindowParent sample_server 50 22 (initial 1000)
  = Returned tt
      (mkConn [mkTrackedWindow 50 1000] (AtLoopHead 1001) true true 1002
         ([QueryTree 22; GetGeometry 50]
          ++ frame_requests 50 1000 21 (mkGeometry 1 0 0 80 60)
          ++ [CreateGC 1001 1000 12 [2158668458; 2164260863];
              StoreShouldRun true; StoreExists true; StartThread 1001;
              Flush]))
  /\ OSSetWindowParent sample_server 20 22 sample_state
     = Returned tt
         (mkConn [mkTrackedWindow 50 1000; mkTrackedWindow 20 1002]
            (InWait 1001) true true 1003
            (trace sample_state
             ++ ([QueryTree 22; GetGeometry 20]
                 ++ frame_requests 20 1002 21 (mkGeometry 1 100 200 640 480))
             ++ [Flush])).
Proof.
  split.
  - apply (embed_requests sample_server 50 22 (mkTree 1 21 [])
             (mkGeometry 1 0 0 80 60) (initial 1000));
      try reflexivity; simpl; lia.
  - apply (embed_requests sample_server 20 22 (mkTree 1 21 [])
             (mkGeometry 1 100 200 640 480) sample_state);
      try reflexivity; simpl; lia.
Defined.

(** X9.  When the tree query on the parent has no reply, nothing is
    embedded, whatever the geometry query on the window answers: the call
    returns after its two queries with the registry, the thread, its flags
    and the id allocator unchanged, so every lookup answers as before. *)
Theorem embed_without_tree_reply_is_noop
    (X : xserver) (w p : xid) (st : conn) :
  p <> 0 ->
  query_tree X p = None ->
  exists st',
    OSSetWindowParent X w p st = Returned tt st'
    /\ trace st' = trace st ++ [QueryTree p; GetGeometry w]
    /\ registry_untouched st st'
    /\ next_xid st' = next_xid st
    /\ forall w', GetFrame (trackedWindows st') w'
                  = GetFrame (trackedWindows st) w'.
Proof.
  intros Hp Ht. exists (appended st [QueryTree p; GetGeometry w]).
  split; [now apply SetParent_no_tree |].
  split; [reflexivity |].
  split; [apply registry_untouched_appended |].
  split; reflexivity.
Qed.

Lemma embed_without_tree_reply_is_noop_witness :
  exists st',
    OSSetWindowParent sample_server 77 99 sample_state = Returned tt st'
    /\ trace st' = trace sample_state ++ [QueryTree 99; GetGeometry 77]
    /\ registry_untouched sample_state st'
    /\ next_xid st' = next_xid sample_state
    /\ forall w', GetFrame (trackedWindows st') w'
                  = GetFrame (trackedWindows sample_state) w'.
Proof.
  apply (embed_without_tree_reply_is_noop sample_server 77 99 sample_state);
    [lia | reflexivity].
Defined.



(** ** Un-embedding *)

Lemma unembed_lookups (X : xserver) (w : xid) (st st' : conn) :
  thread_inv st ->
  OSSetWindowParent X w 0 st = Returned tt st' ->
  GetFrame (trackedWindows st') w = None
  /\ forall w', w' <> w ->
                GetFrame (trackedWindows st') w'
                = GetFrame (trackedWindows st) w'.
Proof.
  intros Hinv H.
  destruct (GetFrame (trackedWindows st) w) as [f |] eqn:Hf.
  - destruct (Nat.eq_dec (List.length (trackedWindows st)) 1) as [Hlen | Hlen].
    + destruct (unembed_last_returned X w f st st' Hinv Hf Hlen H)
        as (Hreg & _).
      rewrite Hreg. split; [reflexivity |]. intros w' Hw. simpl.
      symmetry. now apply (GetFrame_single _ w w' f).
    + rewrite (SetParent_unembed_other X w f st Hf Hlen) in H.
      inversion H; subst; clear H. simpl. split.
      * now rewrite GetFrame_filter, Z.eqb_refl.
      * intros w' Hw. rewrite GetFrame_filter.
        destruct (Z.eqb_spec w' w); [congruence | reflexivity].
  - assert (Hnoop : OSSetWindowParent X w 0 st = Returned tt st).
    { unfold OSSetWindowParent. run. now rewrite Hf. }
    rewrite Hnoop in H. inversion H; subst. now split.
Qed.

(** X11.  After an un-embed of [w] that returns, in a state the process can
    reach, no frame is found for [w] any more and the lookup of every other
    window answers as before; and when the registry does not hold exactly
    one entry the un-embed does return. *)
Theorem unembed_then_lookup
    (X : xserver) (w : xid) (st : conn) :
  reachable st ->
  (forall st',
     OSSetWindowParent X w 0 st = Returned tt st' ->
     GetFrame (trackedWindows st') w = None
     /\ forall w', w' <> w ->
                   GetFrame (trackedWindows st') w'
                   = GetFrame (trackedWindows st) w')
  /\ (List.length (trackedWindows st) <> 1%nat ->
      exists st', OSSetWindowParent X w 0 st = Returned tt st').
Proof.
  intros Hreach. destruct (reachable_invs st Hreach) as [Hinv _].
  split; [intros st'; now apply unembed_lookups |].
  intros Hlen.
  destruct (GetFrame (trackedWindows st) w) as [f |] eqn:Hf.
  - rewrite (SetParent_unembed_other X w f st Hf Hlen). eexists; reflexivity.
  - exists st. unfold OSSetWindowParent. run. now rewrite Hf.
Qed.

Lemma unembed_then_lookup_witness :
  exists st',
    OSSetWindowParent sample_server 50 0 two_state = Returned tt st'
    /\ GetFrame (trackedWindows st') 50 = None
    /\ GetFrame (trackedWindows st') 20 = Some 1002.
Proof.
  assert (Hreach : reachable two_state).
  { exists 1000, two_run. reflexivity. }
  destruct (unembed_then_lookup sample_server 50 two_state Hreach)
    as [Hlookup Hreturns].
  destruct (Hreturns ltac:(simpl; lia)) as [st' Hst']. exists st'.
  destruct (Hlookup st' Hst') as [Hgone Hothers].
  split; [exact Hst' |]. split; [exact Hgone |].
  rewrite (Hothers 20) by lia. reflexivity.
Defined.

(** X12.  Embedding a window that has no entry and un-embedding it again
    gives back the registry as it was, whatever the two calls find on the
    server, as long as both return. *)
Theorem embed_then_unembed_restores_registry
    (X X' : xserver) (w p : xid) (st st1 st2 : conn) :
  reachable st ->
  p <> 0 ->
  GetFrame (trackedWindows st) w = None ->
  OSSetWindowParent X w p st = Returned tt st1 ->
  OSSetWindowParent X' w 0 st1 = Returned tt st2 ->
  trackedWindows st2 = trackedWindows st.
Proof.
  intros Hreach Hp Hnone H1 H2.
  assert (Hreach1 : reachable st1).
  { destruct Hreach as (base & evs & Hrun).
    exists base, (evs ++ [Invoke (CallSetParent X w p)]).
    clear - Hrun H1. revert Hrun. generalize (initial base).
    induction evs as [| e evs IH]; intros s Hrun; simpl in *.
    - inversion Hrun; subst. now rewrite H1.
    - destruct (step e s); [now apply IH | discriminate]. }
  destruct (reachable_invs st1 Hreach1) as [Hinv1 _].
  destruct (query_tree X p) as [t |] eqn:Ht.
  - destruct (Z.eq_dec (t_parent t) (t_root t)) as [Hroot | Hroot].
    + rewrite (SetParent_toplevel X w p t st Hp Ht Hroot) in H1.
      inversion H1; subst; clear H1. revert H2.
      unfold OSSetWindowParent. run. rewrite Hnone.
      intros H2. now inversion H2.
    + destruct (get_geometry X w) as [g |] eqn:Hg.
      * pose proof (embed_registry X w p t g st st1 Hp Ht Hroot Hg H1)
          as Hreg.
        assert (Hnew : GetFrame (trackedWindows st1) w = Some (next_xid st)).
        { rewrite Hreg, GetFrame_app, Hnone. simpl. now rewrite Z.eqb_refl. }
        destruct (Nat.eq_dec (List.length (trackedWindows st1)) 1)
          as [Hlen | Hlen].
        -- destruct (unembed_last_returned X' w _ st1 st2 Hinv1 Hnew Hlen H2)
             as (Hreg2 & _).
           rewrite Hreg2. rewrite Hreg, length_app in Hlen. simpl in Hlen.
           destruct (trackedWindows st); [reflexivity | simpl in Hlen; lia].
        -- rewrite (SetParent_unembed_other X' w _ st1 Hnew Hlen) in H2.
           inversion H2; subst; clear H2. simpl. rewrite Hreg.
           rewrite filter_app. simpl. rewrite Z.eqb_refl. simpl.
           rewrite app_nil_r. now apply filter_keeps_others.
      * rewrite (SetParent_null_geometry X w p t st Hp Ht Hroot Hg) in H1.
        discriminate.
  - rewrite (SetParent_no_tree X w p st Hp Ht) in H1.
    inversion H1; subst; clear H1. revert H2.
    unfold OSSetWindowParent. run. rewrite Hnone.
    intros H2. now inversion H2.
Qed.

Lemma embed_then_unembed_restores_registry_witness :
  exists st1 st2,
    OSSetWindowParent sample_server 20 22 sample_state = Returned tt st1
    /\ OSSetWindowParent desk_server 20 0 st1 = Returned tt st2
    /\ trackedWindows st2 = trackedWindows sample_state.
Proof.
  eexists. eexists. split; [reflexivity |]. split; [reflexivity |].
  eapply (embed_then_unembed_restores_registry sample_server desk_server 20 22
            sample_state);
    [exists 1000, sample_run; reflexivity | lia | reflexivity
     | reflexivity | reflexivity].
Defined.

(** X13.  Un-embedding [w] while the registry does not hold exactly one
    entry returns after reparenting [w] to the root, destroying the frame
    found for [w] (of the first entry of [w]) and flushing; every entry of
    [w] is erased and every other entry kept; the thread, its flags and the
    id allocator are not touched.  In particular, when all the entries are
    entries of [w], the registry is left empty without the thread being
    stopped or joined. *)
Theorem unembed_with_other_entries
    (X : xserver) (w f : xid) (st : conn) :
  GetFrame (trackedWindows st) w = Some f ->
  List.length (trackedWindows st) <> 1%nat ->
  exists st',
    OSSetWindowParent X w 0 st = Returned tt st'
    /\ trace st' = trace st ++
         [ReparentWindow w (rootWindow X) 0 0; DestroyWindow f; Flush;
          EraseWindow w]
    /\ windowThread st' = windowThread st
    /\ windowThreadExists st' = windowThreadExists st
    /\ windowThreadShouldRun st' = windowThreadShouldRun st
    /\ next_xid st' = next_xid st
    /\ (forall tw, In tw (trackedWindows st')
                   <-> In tw (trackedWindows st) /\ window tw <> w)
    /\ ((forall tw, In tw (trackedWindows st) -> window tw = w) ->
        trackedWindows st' = []).
Proof.
  intros Hf Hlen. eexists.
  split; [apply (SetParent_unembed_other X w f st Hf Hlen) |].
  simpl. repeat split; try reflexivity.
  - apply filter_In in H. tauto.
  - apply filter_In in H as [_ H]. apply negb_true_iff, Z.eqb_neq in H.
    exact H.
  - intros [Hin Hw]. apply filter_In. split; [exact Hin |].
    now apply negb_true_iff, Z.eqb_neq.
  - clear Hf Hlen. generalize (trackedWindows st).
    intros reg Hall. induction reg as [| a reg IH]; simpl.
    + reflexivity.
    + rewrite (Hall a (or_introl eq_refl)), Z.eqb_refl. simpl.
      apply IH. intros tw Htw. apply Hall. now right.
Qed.

Lemma unembed_with_other_entries_witness :
  exists st',
    OSSetWindowParent sample_server 50 0 twice_state = Returned tt st'
    /\ trace st' = trace twice_state ++
         [ReparentWindow 50 1 0 0; DestroyWindow 1000; Flush; EraseWindow 50]
    /\ windowThread st' = AtLoopHead 1001
    /\ windowThreadExists st' = true
    /\ trackedWindows st' = [].
Proof.
  destruct (unembed_with_other_entries sample_server 50 1000 twice_state)
    as (st' & Hcall & Htrace & Hthr & Hex & _ & _ & _ & Hempty);
    [reflexivity | simpl; lia |].
  exists st'. repeat split; try assumption.
  apply Hempty. simpl. intros tw [<- | [<- | []]]; reflexivity.
Defined.

(** X14.  Once the un-embed of the only entry has returned, an embed under
    a parent that is not top-level, of a window whose geometry is known,
    returns with a thread started anew: the registry holds the one new
    entry, on the next id of the allocator, the thread stands at the head
    of its loop on the id after it, and both flags are set. *)
Theorem embed_after_last_unembed_restarts_thread
    (X X' : xserver) (w f w2 p : xid) (t : tree_reply) (g : geometry_reply)
    (st st1 : conn) :
  reachable st ->
  trackedWindows st = [mkTrackedWindow w f] ->
  OSSetWindowParent X w 0 st = Returned tt st1 ->
  p <> 0 ->
  query_tree X' p = Some t ->
  t_parent t <> t_root t ->
  get_geometry X' w2 = Some g ->
  exists st2,
    OSSetWindowParent X' w2 p st1 = Returned tt st2
    /\ trackedWindows st2 = [mkTrackedWindow w2 (next_xid st)]
    /\ windowThread st2 = AtLoopHead (next_xid st + 1)
    /\ windowThreadExists st2 = true
    /\ windowThreadShouldRun st2 = true.
Proof.
  intros Hreach Hreg H1 Hp Ht Hroot Hg.
  destruct (reachable_invs st Hreach) as [Hinv _].
  assert (Hf : GetFrame (trackedWindows st) w = Some f).
  { rewrite Hreg. simpl. now rewrite Z.eqb_refl. }
  assert (Hlen : List.length (trackedWindows st) = 1%nat)
    by now rewrite Hreg.
  destruct (unembed_last_returned X w f st st1 Hinv Hf Hlen H1)
    as (Hreg1 & Hthr1 & Hex1 & _ & Hnx1).
  destruct (embed_after_join_starts_thread X' w2 p t g st1
              Hp Ht Hroot Hg Hthr1 Hex1) as (st2 & H2 & Hthr2 & Hex2 & Hsr2).
  exists st2. split; [exact H2 |].
  rewrite (embed_registry X' w2 p t g st1 st2 Hp Ht Hroot Hg H2).
  rewrite Hreg1, Hnx1 in *. now repeat split.
Qed.

Lemma embed_after_last_unembed_restarts_thread_witness :
  exists st1 st2,
    OSSetWindowParent sample_server 50 0 sample_state = Returned tt st1
    /\ OSSetWindowParent sample_server 20 22 st1 = Returned tt st2
    /\ trackedWindows st2 = [mkTrackedWindow 20 1002]
    /\ windowThread st2 = AtLoopHead 1003
    /\ windowThreadExists st2 = true
    /\ windowThreadShouldRun st2 = true.
Proof.
  eexists.
  destruct (embed_after_last_unembed_restarts_thread
              sample_server sample_server 50 1000 20 22 (mkTree 1 21 [])
              (mkGeometry 1 100 200 640 480) sample_state)
    with (st1 := match OSSetWindowParent sample_server 50 0 sample_state with
                 | Returned _ s => s
                 | _ => sample_state
                 end)
    as (st2 & H2 & Hrest);
    [exists 1000, sample_run; reflexivity | reflexivity | reflexivity | lia
     | reflexivity | simpl; lia | reflexivity |].
  exists st2. split; [reflexivity |]. split; [exact H2 | exact Hrest].
Defined.

(** ** The event thread *)

Lemma WindowThread_run_of_running (evs : list (option Z)) :
  forall st st',
    running (windowThread st) = true ->
    WindowThread_run evs st = Some st' ->
    windowThread st' = Finished /\ windowThreadExists st' = false.
Proof.
  induction evs as [| ev evs IH]; intros st st' Hrun H; simpl in H.
  - destruct (windowThread st) eqn:Ht; try discriminate.
    destruct (windowThreadShouldRun st) eqn:Hr; [discriminate |].
    inversion H; subst. unfold WindowThread_step. now rewrite Ht, Hr.
  - destruct (windowThread st) eqn:Ht; try discriminate.
    + destruct (windowThreadShouldRun st) eqn:Hr.
      * assert (Hstep : WindowThread_step ev st = at_thread (InWait gc) st).
        { unfold WindowThread_step. now rewrite Ht, Hr. }
        rewrite Hstep in H. destruct ev as [e |].
        -- eapply IH; [| exact H]. reflexivity.
        -- unfold WindowThread_step in H; simpl in H.
           destruct evs; simpl in H; inversion H; subst; now simpl.
      * inversion H; subst. unfold WindowThread_step. now rewrite Ht, Hr.
    + destruct ev as [e |].
      * eapply IH; [| exact H]. unfold WindowThread_step. now rewrite Ht.
      * unfold WindowThread_step in H. rewrite Ht in H.
        destruct evs; simpl in H; inversion H; subst; now simpl.
Qed.

(** X15.  Whatever [WindowThread] receives until it returns, it changes
    neither the registry nor the id allocator nor the run flag and issues
    no request; when it returns, [windowThreadExists] is false and the
    thread object still holds the thread.  A NULL event makes it return
    whatever the run flag says. *)
Theorem WindowThread_only_ends_itself
    (evs : list (option Z)) (st : conn) :
  running (windowThread st) = true ->
  (forall st',
     WindowThread_run evs st = Some st' ->
     thread_only st st'
     /\ windowThread st' = Finished
     /\ windowThreadExists st' = false)
  /\ exists st', WindowThread_run (None :: evs) st = Some st'.
Proof.
  intros Hrun. split.
  - intros st' H. split; [now apply (WindowThread_run_fields evs) |].
    now apply (WindowThread_run_of_running evs st).
  - simpl. destruct (windowThread st) eqn:Ht; try discriminate.
    + destruct (windowThreadShouldRun st) eqn:Hr.
      * unfold WindowThread_step. rewrite Ht, Hr. simpl.
        destruct evs; simpl; eexists; reflexivity.
      * eexists; reflexivity.
    + unfold WindowThread_step at 1. rewrite Ht.
      destruct evs; simpl; eexists; reflexivity.
Qed.

Lemma WindowThread_only_ends_itself_witness :
  exists st',
    WindowThread_run [None] sample_state = Some st'
    /\ thread_only sample_state st'
    /\ windowThread st' = Finished
    /\ windowThreadExists st' = false.
Proof.
  destruct (WindowThread_only_ends_itself [] sample_state eq_refl)
    as [_ [st' Hst']].
  destruct (WindowThread_only_ends_itself [None] sample_state eq_refl)
    as [Hends _].
  exists st'. split; [exact Hst' | now apply Hends].
Defined.

(** X16.  With the run flag cleared, [WindowThread] returns as soon as
    [xcb_wait_for_event] has given it one more value, and at once when it
    stands at the head of its loop.  With the run flag set and events only
    (no NULL), it never returns. *)
Theorem WindowThread_stops_on_flag_only
    (st : conn) :
  running (windowThread st) = true ->
  (windowThreadShouldRun st = false ->
   (forall ev evs, exists st', WindowThread_run (ev :: evs) st = Some st')
   /\ (forall gc, windowThread st = AtLoopHead gc ->
                  exists st', WindowThread_run [] st = Some st'))
  /\ (windowThreadShouldRun st = true ->
      forall evs,
        Forall (fun ev => ev <> None) evs ->
        WindowThread_run evs st = None).
Proof.
  intros Hrun. split.
  - intros Hr. split.
    + intros ev evs.
      apply (WindowThread_run_returns (ev :: evs) st Hr). discriminate.
    + intros gc Ht. simpl. rewrite Ht, Hr. eexists; reflexivity.
  - intros Hr evs. revert st Hrun Hr.
    induction evs as [| ev evs IH]; intros st Hrun Hr Hevs; simpl.
    + destruct (windowThread st); try discriminate; [now rewrite Hr | reflexivity].
    + inversion Hevs as [| ? ? Hev Hrest]; subst.
      destruct ev as [e |]; [| congruence].
      destruct (windowThread st) eqn:Ht; try discriminate.
      * rewrite Hr. unfold WindowThread_step at 2. rewrite Ht, Hr.
        unfold WindowThread_step; simpl. now apply IH.
      * unfold WindowThread_step. rewrite Ht. now apply IH.
Qed.

Lemma WindowThread_stops_on_flag_only_witness :
  WindowThread_run [Some 18; Some 12; Some 0] sample_state = None
  /\ exists st',
       WindowThread_run [Some 18]
         (mkConn (trackedWindows sample_state) (windowThread sample_state)
                 true false 1002 []) = Some st'.
Proof.
  split.
  - apply (WindowThread_stops_on_flag_only sample_state eq_refl);
      [reflexivity | repeat constructor; discriminate].
  - apply (WindowThread_stops_on_flag_only
             (mkConn (trackedWindows sample_state) (windowThread sample_state)
                     true false 1002 []) eq_refl).
    reflexivity.
Defined.

(** ** The thread and the flags between two calls *)

Lemma SetParent_flag_inv (X : xserver) (w p : xid) (st st' : conn) :
  OSSetWindowParent X w p st = Returned tt st'
  \/ (exists e, OSSetWindowParent X w p st = Threw e st') ->
  thread_inv st -> flag_inv st -> flag_inv st'.
Proof.
  intros H Hinv Hflag.
  destruct (Z.eq_dec p 0) as [-> | Hp].
  - destruct (GetFrame (trackedWindows st) w) as [f |] eqn:Hf.
    + destruct (Nat.eq_dec (List.length (trackedWindows st)) 1) as [Hlen | Hlen].
      * assert (Hj : windowThread st <> NotJoinable).
        { apply Hinv. now apply GetFrame_Some_in in Hf. }
        destruct H as [H | [e H]].
        -- destruct (unembed_last_returned X w f st st' Hinv Hf Hlen H)
             as (_ & Hthr & _).
           unfold flag_inv. rewrite Hthr. discriminate.
        -- rewrite (SetParent_unembed_last X w f st Hf Hlen) in H.
           destruct (windowThread st); [congruence | | |];
             match type of H with
             | context [WindowThread_run ?evs ?s] =>
                 destruct (WindowThread_run evs s); discriminate
             end.
      * rewrite (SetParent_unembed_other X w f st Hf Hlen) in H.
        destruct H as [H | [e H]]; [| discriminate].
        inversion H; subst. exact Hflag.
    + unfold OSSetWindowParent in H. revert H. run. rewrite Hf.
      intros [H | [e H]]; [| discriminate]. now inversion H; subst.
  - destruct (query_tree X p) as [t |] eqn:Ht.
    + destruct (Z.eq_dec (t_parent t) (t_root t)) as [Hroot | Hroot].
      * rewrite (SetParent_toplevel X w p t st Hp Ht Hroot) in H.
        destruct H as [H | [e H]]; [| discriminate]. now inversion H; subst.
      * destruct (get_geometry X w) as [g |] eqn:Hg.
        -- pose proof (SetParent_embeds X w p t g st Hp Ht Hroot Hg) as Hem.
           simpl in Hem. destruct (windowThreadExists st) eqn:Hex.
           ++ destruct Hem as [tr Hem]. rewrite Hem in H.
              destruct H as [H | [e H]]; [| discriminate].
              inversion H; subst. exact Hflag.
           ++ destruct (windowThread st) eqn:Hthr;
                try (rewrite Hem in H; destruct H as [H | [e H]]; discriminate).
              destruct Hem as [tr Hem]. rewrite Hem in H.
              destruct H as [H | [e H]]; [| discriminate].
              inversion H; subst. intros _. reflexivity.
        -- rewrite (SetParent_null_geometry X w p t st Hp Ht Hroot Hg) in H.
           destruct H as [H | [e H]]; discriminate.
    + rewrite (SetParent_no_tree X w p st Hp Ht) in H.
      destruct H as [H | [e H]]; [| discriminate]. now inversion H; subst.
Qed.

Lemma step_flag_inv (e : event) (st st' : conn) :
  step e st = Some st' ->
  thread_inv st -> flag_inv st -> flag_inv st'.
Proof.
  intros Hstep Hinv Hflag. destruct e as [c | ev]; simpl in Hstep.
  - destruct c as [X w p | h b | fuel X wnd mode rects]; simpl in Hstep.
    + destruct (OSSetWindowParent X w p st) as [[] s | e s | |] eqn:Hcall;
        inversion Hstep; subst; clear Hstep;
        (eapply SetParent_flag_inv; [| exact Hinv | exact Hflag]);
        [left; exact Hcall | right; exists e; exact Hcall].
    + destruct (SetBounds_untouched h b st) as [l Hl]. rewrite Hl in Hstep.
      inversion Hstep; subst. exact Hflag.
    + assert (Hu : registry_untouched st st').
      { destruct (OSCaptureMulti fuel X wnd mode rects st) as [[] s | e s | |]
          eqn:Hcall; inversion Hstep; subst; clear Hstep;
          eapply Capture_untouched;
          [left; exact Hcall | right; exists e; exact Hcall]. }
      destruct Hu as (_ & Hthr & _ & Hsr & _).
      unfold flag_inv. now rewrite Hthr, Hsr.
  - inversion Hstep; subst; clear Hstep.
    destruct (WindowThread_step_fields ev st) as (_ & _ & _ & Hsr).
    unfold flag_inv in *. rewrite Hsr. intros Hrun. apply Hflag.
    unfold WindowThread_step in Hrun.
    destruct (windowThread st) eqn:Ht; try reflexivity.
    + simpl in Hrun. now rewrite Ht in Hrun.
    + simpl in Hrun. now rewrite Ht in Hrun.
Qed.

Lemma replay_flag_inv (evs : list event) :
  forall st st',
    replay evs st = Some st' ->
    thread_inv st /\ frames_inv st -> flag_inv st -> flag_inv st'.
Proof.
  induction evs as [| e evs IH]; intros st st' H Hinv Hflag; simpl in H.
  - now inversion H; subst.
  - destruct (step e st) as [st1 |] eqn:Hstep; [| discriminate].
    eapply IH; [exact H | |].
    + eapply step_invs; eauto.
    + eapply step_flag_inv; eauto. apply Hinv.
Qed.

(** X17.  In every state the process can reach, between two calls:
    [windowThreadExists] is set exactly while [WindowThread] runs; while it
    runs the run flag is set, so that it leaves its loop only on a NULL
    event; a registry with entries has a thread object that can be joined;
    and every frame of the registry is an id the allocator has handed
    out. *)
Theorem reachable_thread_and_flags (st : conn) :
  reachable st ->
  windowThreadExists st = running (windowThread st)
  /\ (running (windowThread st) = true -> windowThreadShouldRun st = true)
  /\ (trackedWindows st <> [] -> windowThread st <> NotJoinable)
  /\ Forall (fun tw => frame tw < next_xid st) (trackedWindows st).
Proof.
  intros Hreach.
  destruct (reachable_invs st Hreach) as [[Hex Hjoin] [_ Hlt]].
  destruct Hreach as (base & evs & Hrun).
  pose proof (replay_flag_inv evs _ _ Hrun (initial_invs base)) as Hflag.
  repeat split; try assumption.
  apply Hflag. unfold flag_inv. simpl. discriminate.
Qed.

Lemma reachable_thread_and_flags_witness :
  windowThreadExists sample_state = true
  /\ windowThreadShouldRun sample_state = true
  /\ windowThread sample_state <> NotJoinable
  /\ Forall (fun tw => frame tw < 1002) (trackedWindows sample_state).
Proof.
  destruct (reachable_thread_and_flags sample_state) as (Hex & Hrun & Hj & Hlt).
  - exists 1000, sample_run. reflexivity.
  - split; [exact Hex |]. split; [apply Hrun; reflexivity |].
    split; [apply Hj; discriminate | exact Hlt].
Defined.

(** ** SetBounds with a size *)

(** X18.  [SetBounds] with bounds that fit the fields of a ConfigureWindow
    request (x and y in the signed 16-bit range, width and height between 1
    and 65535), on a handle that has an entry with a frame other than the
    handle itself, configures the frame and then the handle and flushes:
    afterwards the frame has exactly the requested bounds, the handle fills
    the frame (position (0,0) and the requested size), and every other
    window has the geometry it had. *)
Theorem SetBounds_sizes_frame_and_window
    (handle f : xid) (bounds : JSRectangle) (st : conn) :
  GetFrame (trackedWindows st) handle = Some f ->
  f <> handle ->
  in_int16 (x bounds) -> in_int16 (y bounds) ->
  0 < width bounds < 65536 -> 0 < height bounds < 65536 ->
  let all := Z.lor (Z.lor (Z.lor XCB_CONFIG_WINDOW_X XCB_CONFIG_WINDOW_Y)
                          XCB_CONFIG_WINDOW_WIDTH) XCB_CONFIG_WINDOW_HEIGHT in
  let requests :=
    [ConfigureWindow f all
       [x bounds; y bounds; width bounds; height bounds];
     ConfigureWindow handle all [0; 0; width bounds; height bounds];
     Flush] in
  SetBounds handle bounds st = Returned tt (appended st requests)
  /\ (forall g, geometry_after requests f g = bounds)
  /\ (forall g, geometry_after requests handle g
                = mkRect 0 0 (width bounds) (height bounds))
  /\ (forall w g, w <> f -> w <> handle -> geometry_after requests w g = g).
Proof.
  intros Hf Hne Hx Hy Hw Hh all requests. repeat split.
  - unfold SetBounds. run. rewrite Hf.
    assert (Hc : (width bounds >? 0) && (height bounds >? 0) = true).
    { apply andb_true_iff. split; rewrite Z.gtb_ltb; apply Z.ltb_lt; lia. }
    rewrite Hc. now run.
  - intros g. unfold requests; simpl. rewrite Z.eqb_refl.
    destruct (Z.eqb_spec handle f); [congruence |]. now destruct bounds.
  - intros g. unfold requests; simpl. rewrite Z.eqb_refl.
    destruct (Z.eqb_spec f handle); [congruence |]. reflexivity.
  - intros w g Hwf Hwh. unfold requests; simpl.
    destruct (Z.eqb_spec f w); [congruence |].
    destruct (Z.eqb_spec handle w); [congruence | reflexivity].
Qed.

Lemma SetBounds_sizes_frame_and_window_witness :
  SetBounds 50 (mkRect 10 20 300 200) sample_state
  = Returned tt
      (appended sample_state
         [ConfigureWindow 1000 15 [10; 20; 300; 200];
          ConfigureWindow 50 15 [0; 0; 300; 200]; Flush])
  /\ geometry_after
       [ConfigureWindow 1000 15 [10; 20; 300; 200];
        ConfigureWindow 50 15 [0; 0; 300; 200]; Flush] 1000 (mkRect 0 0 80 60)
     = mkRect 10 20 300 200
  /\ geometry_after
       [ConfigureWindow 1000 15 [10; 20; 300; 200];
        ConfigureWindow 50 15 [0; 0; 300; 200]; Flush] 50 (mkRect 7 7 80 60)
     = mkRect 0 0 300 200.
Proof.
  destruct (SetBounds_sizes_frame_and_window 50 1000 (mkRect 10 20 300 200)
              sample_state) as (Hcall & Hframe & Hchild & _);
    [reflexivity | lia | unfold in_int16; simpl; lia
     | unfold in_int16; simpl; lia | simpl; lia | simpl; lia |].
  split; [exact Hcall |]. split; [apply Hframe | apply Hchild].
Defined.

(** ** Capture from a window *)

(** X19.  In Window mode, when the pixmap named for the window has a
    geometry, [Capture] redirects the window, names its pixmap on the id
    the allocator hands out, attaches a segment for the pixmap, reads each
    rectangle, in order, from the pixmap at the rectangle's own coordinates
    and size, frees the pixmap and then detaches the segment; it takes
    exactly one id and leaves the registry, the thread and its flags
    alone. *)
Theorem Capture_window_reads_rectangles_as_given
    (fuel : nat) (X : xserver) (wnd : xid) (rects : list CaptureRect)
    (g : geometry_reply) (st : conn) :
  get_geometry X (next_xid st) = Some g ->
  let pixId := next_xid st in
  OSCaptureMulti fuel X wnd Window rects st
  = Returned tt
      (mkConn (trackedWindows st) (windowThread st) (windowThreadExists st)
         (windowThreadShouldRun st) (pixId + 1)
         (trace st
          ++ [CompositeRedirectWindow wnd XCB_COMPOSITE_REDIRECT_AUTOMATIC;
              CompositeNameWindowPixmap wnd pixId; GetGeometry pixId;
              ShmAttach pixId]
          ++ map (fun r => ShmCopy pixId (data r) (size r)
                             (x (rect r)) (y (rect r))
                             (width (rect r)) (height (rect r))) rects
          ++ [FreePixmap pixId; ShmDetach pixId])).
Proof.
  intros Hg pixId. subst pixId. simpl.
  unfold OSCaptureWindowMulti, XShmCapture_new, XShmCapture_delete.
  run_state. rewrite Hg. unfold bind.
  rewrite window_copies_trace. run. unfold appended; simpl.
  f_equal. f_equal. rewrite <- !app_assoc. reflexivity.
Qed.

Lemma Capture_window_reads_rectangles_as_given_witness :
  OSCaptureMulti 0 desk_server 21 Window
    [mkCaptureRect (mkRect 3 4 5 6) 0 120; mkCaptureRect (mkRect 0 0 2 2) 64 16]
    (initial 40)
  = Returned tt
      (mkConn [] NotJoinable false false 41
         ([CompositeRedirectWindow 21 0; CompositeNameWindowPixmap 21 40;
           GetGeometry 40; ShmAttach 40]
          ++ [ShmCopy 40 0 120 3 4 5 6; ShmCopy 40 64 16 0 0 2 2]
          ++ [FreePixmap 40; ShmDetach 40])).
Proof.
  apply (Capture_window_reads_rectangles_as_given 0 desk_server 21
           [mkCaptureRect (mkRect 3 4 5 6) 0 120;
            mkCaptureRect (mkRect 0 0 2 2) 64 16]
           (mkGeometry 1 9 9 10 10) (initial 40)).
  reflexivity.
Defined.

(** ** Discovery on trees it can walk *)

Lemma max_depth_attained (ms : list (nat * wnode)) :
  ms <> [] -> exists m, In m ms /\ fst m = max_depth ms.
Proof.
  induction ms as [| a ms IH]; [congruence |]. intros _.
  destruct ms as [| b ms].
  - exists a. split; [now left |]. unfold max_depth; simpl. lia.
  - destruct (IH ltac:(discriminate)) as (m & Hin & Hm).
    destruct (Nat.le_gt_cases (max_depth (b :: ms)) (fst a)) as [Hle | Hgt].
    + exists a. split; [now left |].
      change (max_depth (a :: b :: ms))
        with (Nat.max (fst a) (max_depth (b :: ms))). lia.
    + exists m. split; [now right |].
      change (max_depth (a :: b :: ms))
        with (Nat.max (fst a) (max_depth (b :: ms))). lia.
Qed.

(** X20.  On a tree in which no class-name comparison reads past the
    buffer, window discovery returns, in the order of the walk, the handles
    of the descendants of the root that match and lie at the greatest depth
    of any match: a handle is returned exactly when it is the handle of
    such a descendant, no match lies deeper than the ones returned, and the
    result is empty exactly when no descendant matches. *)
Theorem discovery_returns_deepest_matches (root : wnode) :
  forallb (fun m => negb (overruns (snd m))) (descendants root O) = true ->
  exists out,
    OSGetRsHandles root = inr out
    /\ out = map (fun m => node_id (snd m))
               (filter (fun m => (fst m =? max_depth (matches root))%nat)
                       (matches root))
    /\ (forall h,
          In h out
          <-> exists d n,
                In (d, n) (descendants root O)
                /\ is_match n = true
                /\ d = max_depth (matches root)
                /\ node_id n = h)
    /\ (forall d n,
          In (d, n) (descendants root O) -> is_match n = true ->
          (d <= max_depth (matches root))%nat)
    /\ (out = [] <-> matches root = []).
Proof.
  intros Hsafe. eexists.
  split; [apply (OSGetRsHandles_deepest_matches root Hsafe) |].
  split; [reflexivity |]. simpl. split; [| split].
  - intros h. rewrite in_map_iff. split.
    + intros ([d n] & Hid & Hin). apply filter_In in Hin as [Hin Hd].
      unfold matches in Hin at 1. apply filter_In in Hin as [Hin Hm].
      simpl in *. apply Nat.eqb_eq in Hd. now exists d, n.
    + intros (d & n & Hin & Hm & Hd & Hid). exists (d, n).
      split; [exact Hid |]. apply filter_In. split.
      * unfold matches at 1. apply filter_In. now split.
      * simpl. now apply Nat.eqb_eq.
  - intros d n Hin Hm.
    apply (max_depth_bounds (matches root) (d, n)).
    unfold matches. apply filter_In. now split.
  - split.
    + intros Hout. destruct (matches root) as [| a ms] eqn:Hms;
        [reflexivity |].
      destruct (max_depth_attained (a :: ms) ltac:(discriminate))
        as (m & Hin & Hm).
      assert (Hm' : In m (filter (fun m0 => (fst m0 =? max_depth (a :: ms))%nat)
                            (a :: ms))).
      { apply filter_In. split; [exact Hin | now apply Nat.eqb_eq]. }
      apply (in_map (fun m0 => node_id (snd m0))) in Hm'.
      rewrite Hout in Hm'. destruct Hm'.
    + intros ->. reflexivity.
Qed.

Lemma discovery_returns_deepest_matches_witness :
  exists out,
    OSGetRsHandles tied_tree = inr out
    /\ out = [12; 14]
    /\ (out = [] <-> matches tied_tree = []).
Proof.
  destruct (discovery_returns_deepest_matches tied_tree eq_refl)
    as (out & Hcall & Hout & _ & _ & Hempty).
  exists out. split; [exact Hcall |]. split; [| exact Hempty].
  rewrite Hout. reflexivity.
Defined.

(** X21.  A window is taken as a match exactly when its class-name value
    has between 1 and 4095 bytes and its class name, the string after the
    first NUL of the value, is RuneScape or steam_app_1343400; the instance
    name before that NUL plays no part, and a window without a reply is no
    match. *)
Theorem match_is_decided_by_class_name
    (id : xid) (value : list byte) (tree : option (list wnode)) :
  (is_match (WNode id (Some value) tree) = true
   <-> (0 < List.length value < 4096)%nat
       /\ (class_name value = Some RuneScape
           \/ class_name value = Some steam_app_1343400))
  /\ is_match (WNode id None tree) = false.
Proof.
  split; [| reflexivity].
  rewrite is_match_class_name.
  assert (Hread : read_whole value = true
                  <-> (0 < List.length value < 4096)%nat).
  { unfold read_whole, long_length. rewrite andb_true_iff, Z.gtb_ltb.
    rewrite !Z.ltb_lt. lia. }
  now rewrite Hread.
Qed.

(** X22.  The comparison of a window's class name reads past the buffer
    exactly when its class-name value has 4095 bytes and no NUL among them;
    so a tree all of whose values hold a NUL, or are shorter than 4095
    bytes, is walked without such a read. *)
Theorem overrun_needs_4095_bytes_without_nul
    (id : xid) (value : list byte) (tree : option (list wnode)) :
  overruns (WNode id (Some value) tree) = true
  <-> List.length value = 4095%nat /\ after_nul value = None.
Proof.
  unfold overruns. split.
  - intros H. apply andb_true_iff in H as [Hread H].
    destruct (classname_matches_spec value Hread) as [Hnone _].
    destruct (classname_matches value) as [b |] eqn:Hc; [discriminate |].
    destruct Hnone as [Hnone _]. specialize (Hnone eq_refl). tauto.
  - intros [Hlen Hnul].
    assert (Hread : read_whole value = true).
    { unfold read_whole, long_length. rewrite Hlen. reflexivity. }
    rewrite Hread. destruct (classname_matches_spec value Hread) as [Hnone _].
    destruct Hnone as [_ Hnone]. now rewrite Hnone.
Qed.

(** ** How the operations compose *)

(** X23.  Desktop capture for a source whose geometry query has no reply
    does not fail: the client bounds are the zeroed bounds, and every
    rectangle is read from the root window at its own coordinates. *)
Theorem Capture_desktop_of_unknown_source
    (fuel : nat) (X : xserver) (wnd : xid) (rects : list CaptureRect)
    (st : conn) :
  get_geometry X wnd = None ->
  OSCaptureMulti fuel X wnd Desktop rects st
  = Returned tt
      (appended st
         ([ShmAttach (rootWindow X); GetGeometry wnd]
          ++ map (fun r => ShmCopy (rootWindow X) (data r) (size r)
                             (x (rect r)) (y (rect r))
                             (width (rect r)) (height (rect r))) rects
          ++ [ShmDetach (rootWindow X)])).
Proof.
  intros Hg. simpl. rewrite OSCaptureDesktopMulti_outcome.
  unfold GetClientBounds, xcb_get_geometry. run. rewrite Hg.
  rewrite appended_appended. f_equal. f_equal. simpl. f_equal. f_equal.
  f_equal. apply map_ext. intros r. simpl. now rewrite !Z.add_0_r.
Qed.

Lemma Capture_desktop_of_unknown_source_witness :
  OSCaptureMulti 0 sample_server 77 Desktop
    [mkCaptureRect (mkRect 10 10 50 50) 0 10000] (initial 1000)
  = Returned tt
      (appended (initial 1000)
         ([ShmAttach 1; GetGeometry 77]
          ++ [ShmCopy 1 0 10000 10 10 50 50] ++ [ShmDetach 1])).
Proof.
  apply (Capture_desktop_of_unknown_source 0 sample_server 77
           [mkCaptureRect (mkRect 10 10 50 50) 0 10000] (initial 1000)).
  reflexivity.
Defined.

(** X24.  Once a window has been un-embedded, [SetBounds] on it issues
    nothing: in a state the process can reach, after an un-embed of [w]
    that returns, [SetBounds] on [w] returns with the state unchanged,
    whatever the bounds. *)
Theorem SetBounds_after_unembed_is_noop
    (X : xserver) (w : xid) (bounds : JSRectangle) (st st' : conn) :
  reachable st ->
  OSSetWindowParent X w 0 st = Returned tt st' ->
  SetBounds w bounds st' = Returned tt st'.
Proof.
  intros Hreach H. destruct (reachable_invs st Hreach) as [Hinv _].
  destruct (unembed_lookups X w st st' Hinv H) as [Hnone _].
  unfold SetBounds. run. now rewrite Hnone.
Qed.

Lemma SetBounds_after_unembed_is_noop_witness :
  exists st',
    OSSetWindowParent sample_server 50 0 twice_state = Returned tt st'
    /\ SetBounds 50 (mkRect 1 2 30 40) st' = Returned tt st'.
Proof.
  eexists. split; [reflexivity |].
  eapply (SetBounds_after_unembed_is_noop sample_server 50 (mkRect 1 2 30 40)
            twice_state);
    [exists 1000, twice_run; reflexivity | reflexivity].
Defined.

Lemma after_nul_app (inst rest : list byte) :
  forallb (fun c => negb (Byte.eqb c x00)) inst = true ->
  after_nul (inst ++ x00 :: rest) = Some rest.
Proof.
  induction inst as [| c inst IH]; simpl; intros H; [reflexivity |].
  apply andb_true_iff in H as [Hc Hrest]. apply negb_true_iff in Hc.
  rewrite Hc. now apply IH.
Qed.

Lemma until_nul_app (name rest : list byte) :
  forallb (fun c => negb (Byte.eqb c x00)) name = true ->
  until_nul (name ++ x00 :: rest) = name
  /\ until_nul name = name.
Proof.
  induction name as [| c name IH]; simpl; intros H; [now split |].
  apply andb_true_iff in H as [Hc Hrest]. apply negb_true_iff in Hc.
  rewrite Hc. destruct (IH Hrest) as [-> ->]. now split.
Qed.

(** X25.  A class-name value shorter than the read cap, made of any
    instance name without NUL, a NUL and one of the two class names, is a
    match whether the class name ends the value, unterminated, or is
    followed by a NUL and any further bytes. *)
Theorem match_ignores_instance_and_trailing_bytes
    (id : xid) (tree : option (list wnode))
    (instance name rest : list byte) :
  forallb (fun c => negb (Byte.eqb c x00)) instance = true ->
  name = RuneScape \/ name = steam_app_1343400 ->
  (List.length (instance ++ x00 :: name ++ x00 :: rest) < 4096)%nat ->
  is_match (WNode id (Some (instance ++ x00 :: name)) tree) = true
  /\ is_match (WNode id (Some (instance ++ x00 :: name ++ x00 :: rest)) tree)
     = true.
Proof.
  intros Hinst Hname Hlen.
  assert (Hnul : forallb (fun c => negb (Byte.eqb c x00)) name = true).
  { destruct Hname as [-> | ->]; reflexivity. }
  destruct (until_nul_app name rest Hnul) as [Hlong Hshort].
  rewrite !length_app in Hlen. simpl in Hlen. rewrite length_app in Hlen.
  simpl in Hlen.
  split; apply is_match_class_name; split.
  - unfold read_whole, long_length. rewrite length_app. simpl.
    apply andb_true_iff. split; [rewrite Z.gtb_ltb; apply Z.ltb_lt |
                                  apply Z.ltb_lt]; lia.
  - unfold class_name. rewrite (after_nul_app instance name Hinst). simpl.
    rewrite Hshort. destruct Hname as [-> | ->]; [now left | now right].
  - unfold read_whole, long_length. rewrite !length_app. simpl.
    rewrite length_app. simpl.
    apply andb_true_iff. split; [rewrite Z.gtb_ltb; apply Z.ltb_lt |
                                  apply Z.ltb_lt]; lia.
  - unfold class_name.
    rewrite (after_nul_app instance (name ++ x00 :: rest) Hinst). simpl.
    rewrite Hlong. destruct Hname as [-> | ->]; [now left | now right].
Qed.

Lemma match_ignores_instance_and_trailing_bytes_witness :
  is_match (WNode 7 (Some (list_byte_of_string "rs2client" ++ x00 :: RuneScape))
              None) = true
  /\ is_match
       (WNode 7 (Some (list_byte_of_string "rs2client" ++ x00 :: RuneScape
                       ++ x00 :: list_byte_of_string "tail")) None) = true.
Proof.
  apply (match_ignores_instance_and_trailing_bytes 7 None
           (list_byte_of_string "rs2client") RuneScape
           (list_byte_of_string "tail"));
    [reflexivity | now left | simpl; lia].
Defined.
